(** * estipy: the progress estimator [ETA] of [src/estipy/eta.py]

    A shallow embedding of the Python module, and the properties of its
    specification proved or refuted on it.

    - Python integers are [Z].  A [timedelta] and a [datetime] are counted
      in microseconds, with the range checks of the [datetime] module.
    - A Python [float] is what the class [PyFloat] asks for; [binary64] is
      IEEE 754 double precision, on Rocq's primitive floats, with the
      division of two integers rounded once, as Python does it.
    - Exceptions are values of [exn].  A method is a function of the state
      and exception monad [M], in which the state survives a raise, as the
      fields of a Python object survive an exception of one of its methods.
    - The state is the estimator, the wall clock, the text written to the
      streams, and a heap of [Stats] objects: a method that returns a
      snapshot returns a reference to it.

    The definitions come first, in the order of the module; the facts and
    the properties of the specification, C1 to C10, follow. *)

From Stdlib Require Import ZArith QArith Qfield Qpower Qabs Lqa Floats Lia String Ascii.
From stdpp Require Import base list strings pretty.

Local Open Scope Z_scope.

(** ** Exceptions *)

(** The exceptions the module can raise.  [ReferenceError] is what the model
    answers to a reference that was never allocated; Python has no such
    references, and no reachable state of the model has one. *)
Inductive exn : Set :=
  | StopIteration
  | TypeError
  | ZeroDivisionError
  | OverflowError
  | ReferenceError.

Inductive result (A : Type) : Type :=
  | Ok (a : A)
  | Raise (e : exn).
Arguments Ok {A} a.
Arguments Raise {A} e.

Definition result_bind {A B} (r : result A) (k : A -> result B) : result B :=
  match r with
  | Ok a => k a
  | Raise e => Raise e
  end.

#[global] Instance result_ret : MRet result := @Ok.
#[global] Instance result_fmap : FMap result := fun A B f r =>
  match r with
  | Ok a => Ok (f a)
  | Raise e => Raise e
  end.
#[global] Instance result_mbind : MBind result :=
  fun A B k r => result_bind r k.

(** ** [datetime.timedelta] and [datetime.datetime] *)

Definition US_PER_SECOND : Z := 1000000.
Definition US_PER_DAY : Z := 86400 * US_PER_SECOND.
(** [timedelta.max.days], and [datetime.max.toordinal()]. *)
Definition MAX_DELTA_DAYS : Z := 999999999.
Definition MAXORDINAL : Z := 3652059.

(** A duration, as its total number of microseconds. *)
Record timedelta : Set := Timedelta { td_us : Z }.
(** A naive time stamp, in microseconds since 0001-01-01 00:00:00. *)
Record datetime : Set := Datetime { dt_us : Z }.

Definition td_days (d : timedelta) : Z := td_us d / US_PER_DAY.
Definition td_seconds (d : timedelta) : Z := (td_us d mod US_PER_DAY) / US_PER_SECOND.
Definition td_microseconds (d : timedelta) : Z := td_us d mod US_PER_SECOND.

(** Every [timedelta] is built through the range check on its days. *)
Definition new_delta (us : Z) : result timedelta :=
  let days := us / US_PER_DAY in
  if (- MAX_DELTA_DAYS <=? days) && (days <=? MAX_DELTA_DAYS)
  then Ok (Timedelta us)
  else Raise OverflowError.

Definition new_datetime (us : Z) : result datetime :=
  if (0 <=? us) && (us <? MAXORDINAL * US_PER_DAY)
  then Ok (Datetime us)
  else Raise OverflowError.

(** [_divide_and_round]: quotient rounded to the nearest integer, halves to
    the even one.  [Z.div] and [Z.modulo] floor like Python's [divmod]. *)
Definition divide_and_round (a b : Z) : Z :=
  let q := a / b in
  let r := 2 * (a mod b) in
  let greater_than_half := if 0 <? b then b <? r else r <? b in
  if greater_than_half || ((r =? b) && Z.odd q) then q + 1 else q.

(** [datetime - datetime] *)
Definition datetime_sub (a b : datetime) : result timedelta :=
  new_delta (dt_us a - dt_us b).

(** [datetime + timedelta] *)
Definition datetime_add (a : datetime) (d : timedelta) : result datetime :=
  new_datetime (dt_us a + td_us d).

(** [timedelta / int] *)
Definition timedelta_truediv (d : timedelta) (n : Z) : result timedelta :=
  if n =? 0 then Raise ZeroDivisionError
  else new_delta (divide_and_round (td_us d) n).

(** [timedelta * int] *)
Definition timedelta_mul (d : timedelta) (n : Z) : result timedelta :=
  new_delta (td_us d * n).

(** ** Text of integers and durations *)

(** [str(int)] *)
Definition int_str (z : Z) : string := pretty z.

(** ["%0<w>d" % z] for a [z >= 0]: zeros on the left up to width [w]. *)
Definition zero_pad (w : nat) (z : Z) : string :=
  let s := int_str z in
  String.concat "" (replicate (w - String.length s)%nat "0") +:+ s.

(** [timedelta.__str__] *)
Definition timedelta_str (d : timedelta) : string :=
  let ss := td_seconds d mod 60 in
  let mm := td_seconds d / 60 in
  let hh := mm / 60 in
  let mm := mm mod 60 in
  let s := int_str hh +:+ ":" +:+ zero_pad 2 mm +:+ ":" +:+ zero_pad 2 ss in
  let s :=
    if td_days d =? 0 then s
    else int_str (td_days d) +:+ " day"
         +:+ (if Z.abs (td_days d) =? 1 then "" else "s") +:+ ", " +:+ s in
  if td_microseconds d =? 0 then s
  else s +:+ "." +:+ zero_pad 6 (td_microseconds d).

(** ** Floating-point numbers *)

(** What the module asks of Python's [float]: the true division of two
    integers, the conversion of an integer, the product, and the format
    [.1f].  [binary64] below is IEEE 754 double precision, Python's own. *)
Class PyFloat (F : Type) : Type := {
  int_truediv : Z -> Z -> result F;
  int_to_float : Z -> result F;
  float_mul : F -> F -> F;
  format_1f : F -> string
}.

(** [num / den] with one digit after the point, rounded to the nearest tenth
    with halves to even; [neg] is the sign that is printed. *)
Definition format_tenths (neg : bool) (num den : Z) : string :=
  let t := divide_and_round (10 * num) den in
  (if neg then "-" else "") +:+ int_str (t / 10) +:+ "." +:+ int_str (t mod 10).

Module Binary64.

(** The quotient of two positive integers, correctly rounded. *)
Definition div_pos (neg : bool) (a b : positive) : float :=
  let '(m, e, l) := SFdiv_core_binary prec emax (Z.pos a) 0 (Z.pos b) 0 in
  SF2Prim (binary_round_aux prec emax neg m e l).

Definition signed_zero (neg : bool) : float :=
  if neg then PrimFloat.neg_zero else PrimFloat.zero.

Definition truediv (a b : Z) : result float :=
  let neg := xorb (a <? 0) (b <? 0) in
  match Z.abs a, Z.abs b with
  | _, 0 => Raise ZeroDivisionError
  | Z.pos a', Z.pos b' =>
      let q := div_pos neg a' b' in
      if is_infinity q then Raise OverflowError else Ok q
  | _, _ => Ok (signed_zero neg)
  end.

Definition of_int (z : Z) : result float :=
  let q := SF2Prim (binary_normalize prec emax z 0 false) in
  if is_infinity q then Raise OverflowError else Ok q.

Definition format (f : float) : string :=
  match Prim2SF f with
  | S754_zero s => format_tenths s 0 1
  | S754_infinity s => if s then "-inf" else "inf"
  | S754_nan => "nan"
  | S754_finite s m e =>
      if 0 <=? e then format_tenths s (Z.pos m * 2 ^ e) 1
      else format_tenths s (Z.pos m) (2 ^ (- e))
  end.

End Binary64.

#[global] Instance binary64 : PyFloat float := {
  int_truediv := Binary64.truediv;
  int_to_float := Binary64.of_int;
  float_mul := PrimFloat.mul;
  format_1f := Binary64.format
}.

(** *** The values of floats, and their rounding *)

(** The exponent of the binary64 numbers whose leading digit has the weight
    [2 ^ (z - 1)]: a mantissa of 53 digits, and no exponent under -1074. *)
Definition fexp64 (z : Z) : Z := fexp prec emax z.

(** [mrs] is the record of [n / d]: its mantissa is the integer part, the
    round bit tells whether the rest reaches one half, the sticky bit
    whether something is left beside. *)
Definition rec_ok (mrs : shr_record) (n d : Z) : Prop :=
  0 < d /\ 0 <= shr_m mrs /\
  shr_m mrs * d <= n < (shr_m mrs + 1) * d /\
  (shr_r mrs = true <-> (2 * shr_m mrs + 1) * d <= 2 * n) /\
  (shr_s mrs = true <-> n <> shr_m mrs * d /\ 2 * n <> (2 * shr_m mrs + 1) * d).

(** The value [V * 2 ^ E] of a float that is zero or finite, with its
    sign, and the float is a valid binary64. *)
Definition SF_is (f : spec_float) (s : bool) (V E : Z) : Prop :=
  (V = 0 /\ f = S754_zero s) \/
  (exists m e, f = S754_finite s m e /\ E <= e /\ Z.pos m * 2 ^ (e - E) = V /\
               bounded prec emax m e = true).

(** The value of a float, a rational number; an infinity and a NaN have
    none, and count as 0 here. *)
Definition SF2Q (f : spec_float) : Q :=
  match f with
  | S754_finite s m e =>
      ((if s then - (1) else 1) * inject_Z (Z.pos m) * 2 ^ e)%Q
  | _ => 0%Q
  end.

(** The value of a Python float. *)
Definition B2Q (f : float) : Q := SF2Q (Prim2SF f).

(** A float that is zero or finite, and not negative. *)
Definition nonneg_finite (f : spec_float) : Prop :=
  match f with
  | S754_zero false | S754_finite false _ _ => True
  | _ => False
  end.

(** What the proofs ask of an implementation of [float]: the true division
    raises [ZeroDivisionError] for the divisor zero and for no other, and
    beside it only [OverflowError], which is also all the conversion of an
    integer can raise. *)
Class PyFloatLaws (F : Type) `{PyFloat F} : Prop := {
  int_truediv_zero : forall a, int_truediv a 0 = Raise ZeroDivisionError;
  int_truediv_raises : forall a b e,
    int_truediv a b = Raise e ->
    (e = ZeroDivisionError /\ b = 0) \/ (e = OverflowError /\ b <> 0);
  int_to_float_raises : forall z e,
    int_to_float z = Raise e -> e = OverflowError
}.

(** ** The data model *)

(** A percentage is whatever number the code stores: [stats] stores the
    integer [100] for the total and floats for the other two. *)
Inductive number (F : Type) : Type :=
  | NInt (z : Z)
  | NFloat (f : F).
Arguments NInt {F} z.
Arguments NFloat {F} f.

(** [@dataclass class AbsRelTime] *)
Record AbsRelTime (F : Type) : Type := {
  time : timedelta;
  absolute : Z;
  percentage : number F
}.
Arguments time {F} _.
Arguments absolute {F} _.
Arguments percentage {F} _.

(** [@dataclass(frozen=True) class Stats] *)
Record Stats (F : Type) : Type := {
  total : AbsRelTime F;
  remaining : AbsRelTime F;
  done : AbsRelTime F;
  eta : datetime
}.
Arguments total {F} _.
Arguments remaining {F} _.
Arguments done {F} _.
Arguments eta {F} _.

(** The fields of an [ETA] instance; [__iterable] holds what the iterator
    [iter(iterable)] has still to yield, [__file] names the stream ([None]
    is standard output). *)
Record ETA (T : Type) : Type := {
  __iterable : list T;
  __total : Z;
  __done : Z;
  __start_time : datetime;
  __auto_print : bool;
  __overwrite : bool;
  __file : option string
}.
Arguments __iterable {T} _.
Arguments __total {T} _.
Arguments __done {T} _.
Arguments __start_time {T} _.
Arguments __auto_print {T} _.
Arguments __overwrite {T} _.
Arguments __file {T} _.

(** A reference to a [Stats] object: its index in the heap. *)
Definition ref : Set := nat.

(** What surrounds the estimator: the wall clock ([clock n] is what the
    [n]-th call of [datetime.now()] returns, [ticks] counts the calls made),
    the [Stats] objects alive, each with its three [AbsRelTime] inside, and
    the text written to each stream, oldest first. *)
Record World (F : Type) : Type := {
  clock : nat -> datetime;
  ticks : nat;
  heap : list (Stats F);
  out : list (option string * string)
}.
Arguments clock {F} _ _.
Arguments ticks {F} _.
Arguments heap {F} _.
Arguments out {F} _.

Record Machine (T F : Type) : Type := {
  self : ETA T;
  world : World F
}.
Arguments self {T F} _.
Arguments world {T F} _.

(** What [__init__] asks of its argument [iterable]: whether it has
    [__len__] and what [len] returns then, and the items that the iterator
    [iter(iterable)] yields.  The two are asked for independently, and they
    can disagree: a list can grow or shrink after the estimator is built,
    and a class can have a [__len__] that says something else than its
    iterator yields. *)
Record Iterable (T : Type) : Type := {
  its_len : option nat;
  its_items : list T
}.
Arguments its_len {T} _.
Arguments its_items {T} _.

(** A sequence that is left alone while it is iterated (a tuple, a range, a
    list that is not changed): its length is the number of its items. *)
Definition Sized {T} (xs : list T) : Iterable T :=
  {| its_len := Some (length xs); its_items := xs |}.

(** A plain iterator, which has no [__len__]. *)
Definition Unsized {T} (xs : list T) : Iterable T :=
  {| its_len := None; its_items := xs |}.

Definition hasattr_len {T} (it : Iterable T) : bool :=
  match its_len it with Some _ => true | None => false end.

Definition iter {T} (it : Iterable T) : list T := its_items it.

(** [len(iterable)], which raises [TypeError] without a [__len__]. *)
Definition len {T} (it : Iterable T) : result Z :=
  match its_len it with
  | Some n => Ok (Z.of_nat n)
  | None => Raise TypeError
  end.

(** ** The monad of methods *)

Section Monad.
Context {T F : Type}.

(** A method runs on the machine and returns or raises; the machine it
    leaves is there in both cases. *)
Definition M (A : Type) : Type := Machine T F -> result A * Machine T F.

#[global] Instance M_ret : MRet M := fun A a m => (Ok a, m).
#[global] Instance M_bind : MBind M := fun A B k c m =>
  match c m with
  | (Ok a, m') => k a m'
  | (Raise e, m') => (Raise e, m')
  end.

Definition lift {A} (r : result A) : M A := fun m => (r, m).

Definition get_self : M (ETA T) := fun m => (Ok (self m), m).

Definition set_self (e : ETA T) : M unit :=
  fun m => (Ok tt, {| self := e; world := world m |}).

Definition set_world (w : World F) : M unit :=
  fun m => (Ok tt, {| self := self m; world := w |}).

Definition get_world : M (World F) := fun m => (Ok (world m), m).

(** [datetime.now()] *)
Definition datetime_now : M datetime :=
  w ← get_world;
  set_world {| clock := clock w; ticks := S (ticks w); heap := heap w; out := out w |};;
  mret (clock w (ticks w)).

(** A new [Stats] object. *)
Definition alloc (s : Stats F) : M ref :=
  w ← get_world;
  set_world {| clock := clock w; ticks := ticks w; heap := heap w ++ [s]; out := out w |};;
  mret (length (heap w)).

Definition deref (r : ref) : M (Stats F) :=
  w ← get_world;
  match heap w !! r with
  | Some s => mret s
  | None => lift (Raise ReferenceError)
  end.

(** [file.write(text)], followed by the flush. *)
Definition write (file : option string) (text : string) : M unit :=
  w ← get_world;
  set_world {| clock := clock w; ticks := ticks w; heap := heap w;
               out := out w ++ [(file, text)] |}.

End Monad.

(** ** [ETA.Stats] *)

(** The objects [dataclasses.asdict] builds: a [dict] keeps its keys in the
    order of insertion. *)
#[warnings="-register-all"]
Inductive value (F : Type) : Type :=
  | VInt (z : Z)
  | VFloat (f : F)
  | VTimedelta (d : timedelta)
  | VDatetime (t : datetime)
  | VDict (items : list (string * value F)).
Arguments VInt {F} z.
Arguments VFloat {F} f.
Arguments VTimedelta {F} d.
Arguments VDatetime {F} t.
Arguments VDict {F} items.

Definition number_value {F} (n : number F) : value F :=
  match n with
  | NInt z => VInt z
  | NFloat f => VFloat f
  end.

(** [dataclasses.asdict] on an [AbsRelTime]: one entry per field, in the
    order of the class. *)
Definition asdict_AbsRelTime {F} (a : AbsRelTime F) : value F :=
  VDict [("time", VTimedelta (time a));
         ("absolute", VInt (absolute a));
         ("percentage", number_value (percentage a))]%string.

Definition asdict_Stats {F} (s : Stats F) : value F :=
  VDict [("total", asdict_AbsRelTime (total s));
         ("remaining", asdict_AbsRelTime (remaining s));
         ("done", asdict_AbsRelTime (done s));
         ("eta", VDatetime (eta s))]%string.

(** [d.keys()], as a list, and [d.get(k)]. *)
Definition dict_keys {F} (v : value F) : option (list string) :=
  match v with
  | VDict items => Some (map fst items)
  | _ => None
  end.

Fixpoint assoc {A} (k : string) (items : list (string * A)) : option A :=
  match items with
  | [] => None
  | (k', v) :: items' => if String.eqb k k' then Some v else assoc k items'
  end.

Definition dict_get {F} (k : string) (v : value F) : option (value F) :=
  match v with
  | VDict items => assoc k items
  | _ => None
  end.

(** [format(n, '.1f')]: an [int] is converted to [float] first. *)
Definition format_spec_1f {F} `{PyFloat F} (n : number F) : result string :=
  match n with
  | NInt z => f ← int_to_float z; mret (format_1f f)
  | NFloat f => mret (format_1f f)
  end.

(** The carriage return and the line feed. *)
Definition CR : string := String (ascii_of_nat 13) EmptyString.
Definition LF : string := String (ascii_of_nat 10) EmptyString.

Module Stats.
Section Methods.
Context {T F : Type} `{PyFloat F}.

Definition __str__ (self : ref) : M (T:=T) string :=
  s ← deref self;
  p ← lift (format_spec_1f (percentage (done s)));
  mret ((int_str (absolute (done s)) +:+ "/" +:+ int_str (absolute (total s))
           +:+ " = " +:+ p +:+ "%, ")
        +:+ ("remaining " +:+ timedelta_str (time (remaining s)))).

Definition print_refresh (self : ref) (file : option string) : M (T:=T) unit :=
  text ← __str__ self;
  write file (CR +:+ text).

Definition print (self : ref) (file : option string) : M (T:=T) unit :=
  text ← __str__ self;
  write file (text +:+ LF).

(** [dataclasses.asdict(self)]; the method [json], which hands this mapping
    to [json.dumps], is left out. *)
Definition dict (self : ref) : M (T:=T) (value F) :=
  s ← deref self;
  mret (asdict_Stats s).

End Methods.
End Stats.

(** ** [ETA] *)

Module ETA.
Section Methods.
Context {T F : Type} `{PyFloat F}.

Definition __init__ (iterable : Iterable T) (total : option Z)
    (auto_print overwrite : bool) (file : option string)
    (w : World F) : result (Machine T F) :=
  let from_len :=
    if hasattr_len iterable then len iterable else Raise TypeError in
  total_ ←
    match total with
    | Some t => if t =? 0 then from_len else Ok t
    | None => from_len
    end;
  mret {| self := {| __iterable := iter iterable;
                     __total := total_;
                     __done := 0;
                     __start_time := clock w (ticks w);
                     __auto_print := auto_print;
                     __overwrite := overwrite;
                     __file := file |};
          world := {| clock := clock w; ticks := S (ticks w);
                      heap := heap w; out := out w |} |}.

(** [(a / b) * 100] *)
Definition percent (a b : Z) : result F :=
  q ← int_truediv a b;
  c ← int_to_float 100;
  mret (float_mul q c).

Definition stats : M (T:=T) ref :=
  e ← get_self;
  now ← datetime_now;
  elapsed_since_start ← lift (datetime_sub now (__start_time e));
  duration_per_operation ← lift (timedelta_truediv elapsed_since_start (__done e));
  let remaining_absolute := __total e - __done e in
  remaining_time ← lift (timedelta_mul duration_per_operation remaining_absolute);
  total_time ← lift (timedelta_mul duration_per_operation (__total e));
  remaining_percentage ← lift (percent remaining_absolute (__total e));
  done_time ← lift (timedelta_mul duration_per_operation (__done e));
  done_percentage ← lift (percent (__done e) (__total e));
  now' ← datetime_now;
  eta_ ← lift (datetime_add now' remaining_time);
  alloc {| total := {| time := total_time;
                       absolute := __total e;
                       percentage := NInt 100 |};
           remaining := {| time := remaining_time;
                           absolute := remaining_absolute;
                           percentage := NFloat remaining_percentage |};
           done := {| time := done_time;
                      absolute := __done e;
                      percentage := NFloat done_percentage |};
           eta := eta_ |}.

(** [next(self.__iterable)] *)
Definition next_iterable : M (F:=F) T :=
  e ← get_self;
  match __iterable e with
  | [] => lift (Raise StopIteration)
  | x :: xs =>
      set_self {| __iterable := xs; __total := __total e; __done := __done e;
                  __start_time := __start_time e; __auto_print := __auto_print e;
                  __overwrite := __overwrite e; __file := __file e |};;
      mret x
  end.

(** [self.__done += 1] *)
Definition increment_done : M (T:=T) (F:=F) unit :=
  e ← get_self;
  set_self {| __iterable := __iterable e; __total := __total e;
              __done := __done e + 1;
              __start_time := __start_time e; __auto_print := __auto_print e;
              __overwrite := __overwrite e; __file := __file e |}.

Definition __next__ : M (T * ref) :=
  increment_done;;
  iterable_next_item ← next_iterable;
  stats_ ← stats;
  e ← get_self;
  (if __auto_print e && __overwrite e
   then Stats.print_refresh stats_ (__file e)
   else if __auto_print e && negb (__overwrite e)
   then Stats.print stats_ (__file e)
   else mret tt);;
  mret (iterable_next_item, stats_).

(** [__iter__] returns [self]: the estimator of the machine is its own
    iterator, and nothing changes. *)
Definition __iter__ : M (T:=T) (F:=F) unit := mret tt.

End Methods.
End ETA.

(** ** Callers *)

(** What a caller can do with an estimator and the snapshots it hands out:
    the public methods of the two classes. *)
Inductive call : Set :=
  | CallNext
  | CallStats
  | CallStr (r : ref)
  | CallPrint (r : ref) (file : option string)
  | CallPrintRefresh (r : ref) (file : option string)
  | CallDict (r : ref).

Section Callers.
Context {T F : Type} `{PyFloat F}.

(** The machine after a call, whether it returned or raised. *)
Definition after {A} (c : M (T:=T) (F:=F) A) (m : Machine T F) : Machine T F :=
  snd (c m).

Definition run_call (c : call) (m : Machine T F) : Machine T F :=
  match c with
  | CallNext => after ETA.__next__ m
  | CallStats => after ETA.stats m
  | CallStr r => after (Stats.__str__ r) m
  | CallPrint r file => after (Stats.print r file) m
  | CallPrintRefresh r file => after (Stats.print_refresh r file) m
  | CallDict r => after (Stats.dict r) m
  end.

Definition run_calls (cs : list call) (m : Machine T F) : Machine T F :=
  foldl (fun m c => run_call c m) m cs.

(** [k] advances in a row, as the [for] loop of [main.py] makes them;
    the results are collected, and the first exception ends the run. *)
Fixpoint advances (k : nat) : M (T:=T) (F:=F) (list (T * ref)) :=
  match k with
  | O => mret []
  | S k' =>
      rs ← advances k';
      r ← ETA.__next__;
      mret (rs ++ [r])
  end.


End Callers.

(** ** The vocabulary of the specification *)

Section Vocabulary.
Context {T F : Type} `{PyFloat F}.
Implicit Types (m : Machine T F) (s : Stats F) (e : ETA T).

(** [s] is what [stats] computes of the counts of [e]. *)
Definition snapshot_of e s : Prop :=
  absolute (total s) = __total e /\
  absolute (done s) = __done e /\
  absolute (remaining s) = __total e - __done e /\
  percentage (total s) = NInt 100 /\
  (exists p, ETA.percent (__done e) (__total e) = Ok p /\
             percentage (done s) = NFloat p) /\
  (exists p, ETA.percent (__total e - __done e) (__total e) = Ok p /\
             percentage (remaining s) = NFloat p) /\
  __done e <> 0.

(** From [m] to [m']: the objects of the heap are still there and as they
    were, the total and the clock are the same, the count of done items has
    not gone down, and an exhausted iterator is still exhausted. *)
Definition evolves m m' : Prop :=
  heap (world m) `prefix_of` heap (world m') /\
  __total (self m') = __total (self m) /\
  __done (self m) <= __done (self m') /\
  clock (world m') = clock (world m) /\
  (__iterable (self m) = [] -> __iterable (self m') = []).

(** A method that only evolves the machine, whether it returns or raises. *)
Definition steady {A} (c : M (T:=T) (F:=F) A) : Prop :=
  forall m, evolves m (after c m).

(** The text of the specification: ["<done_count>/<total_count> =
    <done_percentage:1 decimal>%, remaining <remaining_duration>"]. *)
Definition spec_text s : result string :=
  p ← format_spec_1f (percentage (done s));
  mret (String.concat ""
          [int_str (absolute (done s)); "/"; int_str (absolute (total s));
           " = "; p; "%, remaining "; timedelta_str (time (remaining s))]).

(** What a method sees behind a reference. *)
Definition object m (r : ref) : result (Stats F) :=
  match heap (world m) !! r with
  | Some s => Ok s
  | None => Raise ReferenceError
  end.

(** The machine after [text] went to [file]. *)
Definition written (file : option string) (text : string) m : Machine T F :=
  {| self := self m;
     world := {| clock := clock (world m); ticks := ticks (world m);
                 heap := heap (world m);
                 out := out (world m) ++ [(file, text)] |} |}.

(** The mapping as the specification words it: the four fields, and under
    [total], [remaining] and [done] a mapping with the fields [duration],
    [count] and [percentage] of the data model. *)
Definition spec_mapping (v : value F) : Prop :=
  dict_keys v = Some ["total"; "remaining"; "done"; "eta"]%string /\
  forall k, k ∈ ["total"; "remaining"; "done"]%string ->
    exists facet, dict_get k v = Some facet /\
      dict_keys facet = Some ["duration"; "count"; "percentage"]%string.

(** The mapping of a facet as the code builds it: the fields of the class
    [AbsRelTime] under their own names. *)
Definition facet_mapping (a : AbsRelTime F) (facet : value F) : Prop :=
  dict_keys facet = Some ["time"; "absolute"; "percentage"]%string /\
  dict_get "time" facet = Some (VTimedelta (time a)) /\
  dict_get "absolute" facet = Some (VInt (absolute a)) /\
  dict_get "percentage" facet = Some (number_value (percentage a)).

(** A clock with which the time arithmetic of [stats] stays in range for an
    estimator started at [start] with the total [N], up to the reading
    number [horizon]: for any two readings [now] and [now'] before it, the
    elapsed time [now - start] is not negative, [N] times the elapsed time is
    a [timedelta], and [now'] plus that is a [datetime]. *)
Definition fair_clock (w : World F) (start : datetime) (N : Z) (horizon : nat) : Prop :=
  forall n n', (n < horizon)%nat -> (n' < horizon)%nat ->
    let elapsed := dt_us (clock w n) - dt_us start in
    0 <= elapsed /\
    elapsed * N < MAX_DELTA_DAYS * US_PER_DAY /\
    0 <= dt_us (clock w n') /\
    dt_us (clock w n') + elapsed * N < MAXORDINAL * US_PER_DAY.

End Vocabulary.

(** ** A session *)

(** A wall clock that starts in the year 1997 and is one second later at
    every reading; a world in which nothing has happened yet; and the
    estimator [ETA([10, 20, 30], auto_print=False)] in it. *)
Definition wall_clock (n : nat) : datetime :=
  Datetime (63000000000000000 + US_PER_SECOND * Z.of_nat n).

Definition new_world {F} : World F :=
  {| clock := wall_clock; ticks := 0; heap := []; out := [] |}.

Definition session {F} : Machine Z F :=
  {| self := {| __iterable := [10; 20; 30];
                __total := 3;
                __done := 0;
                __start_time := wall_clock 0;
                __auto_print := false;
                __overwrite := true;
                __file := None |};
     world := {| clock := wall_clock; ticks := 1; heap := []; out := [] |} |}.

(** The estimator [ETA(xs, total, auto_print, overwrite)] with a total that
    is not zero, in the same new world. *)
Definition estimator {F} (xs : list Z) (total : Z) (auto_print overwrite : bool) :
    Machine Z F :=
  {| self := {| __iterable := xs;
                __total := total;
                __done := 0;
                __start_time := wall_clock 0;
                __auto_print := auto_print;
                __overwrite := overwrite;
                __file := None |};
     world := {| clock := wall_clock; ticks := 1; heap := []; out := [] |} |}.

(** ** The loop of [main.py] *)

Section Loop.
Context {T F : Type} `{PyFloat F}.

(** [for item, _ in eta: body(item)], after [iter(eta)]: [StopIteration]
    from [__next__] ends the loop, any other exception leaves it.  The loop
    is given fuel for its iterations; [None] tells that it ran out. *)
Fixpoint for_each (fuel : nat) (body : T -> M (T:=T) (F:=F) unit)
    (m : Machine T F) : result (option unit) * Machine T F :=
  match fuel with
  | O => (Ok None, m)
  | S fuel' =>
      match ETA.__next__ m with
      | (Ok (item, _), m1) =>
          match body item m1 with
          | (Ok tt, m2) => for_each fuel' body m2
          | (Raise e, m2) => (Raise e, m2)
          end
      | (Raise StopIteration, m1) => (Ok (Some tt), m1)
      | (Raise e, m1) => (Raise e, m1)
      end
  end.

Definition for_loop (fuel : nat) (body : T -> M (T:=T) (F:=F) unit) :
    M (T:=T) (F:=F) (option unit) :=
  ETA.__iter__;; for_each fuel body.

End Loop.

(** [print(num)] on standard output, and [time.sleep(0.1)]: the time that
    passes is in the readings of the clock. *)
Definition main_body {F} (num : Z) : M (T:=Z) (F:=F) unit :=
  write None (int_str num +:+ LF);;
  mret tt.

(** [main.py] over [data], all options of [ETA] at their defaults. *)
Definition main {F} `{PyFloat F} (fuel : nat) (data : list Z) (w : World F) :
    result (option unit * Machine Z F) :=
  m0 ← ETA.__init__ (Sized data) None true true None w;
  match for_loop fuel main_body m0 with
  | (Ok r, m) => Ok (r, m)
  | (Raise e, _) => Raise e
  end.

(** What [main.py] writes over [data] when the status lines have the texts
    [texts]: before each number its status line, which the carriage return
    puts at the start of the terminal's line. *)
Definition main_output (texts : list string) (data : list Z) :
    list (option string * string) :=
  concat (zip_with (fun text num => [(None, CR +:+ text); (None, int_str num +:+ LF)])
            texts data).

(** ** What the methods leave alone *)

Section Untouched.
Context {T F : Type} `{PyFloat F}.
Implicit Types m : Machine T F.

(** From [m] to [m']: the settings of the estimator and the clock are the
    same, what was written is still there, and no reading of the clock is
    taken back. *)
Definition settings m m' : Prop :=
  __total (self m') = __total (self m) /\
  __start_time (self m') = __start_time (self m) /\
  __auto_print (self m') = __auto_print (self m) /\
  __overwrite (self m') = __overwrite (self m) /\
  __file (self m') = __file (self m) /\
  clock (world m') = clock (world m) /\
  out (world m) `prefix_of` out (world m') /\
  (ticks (world m) <= ticks (world m'))%nat.

(** The settings, and the iterator and the count of done items too. *)
Definition untouched m m' : Prop :=
  settings m m' /\
  __done (self m') = __done (self m) /\
  __iterable (self m') = __iterable (self m).

(** A method that leaves the estimator untouched, whether it returns or
    raises. *)
Definition keeps {A} (c : M (T:=T) (F:=F) A) : Prop :=
  forall m, untouched m (after c m).

(** The machine after the increment and the fetch of [__next__], with [xs]
    left in the iterator. *)
Definition fetched m (xs : list T) : Machine T F :=
  {| self := {| __iterable := xs; __total := __total (self m);
                __done := __done (self m) + 1;
                __start_time := __start_time (self m);
                __auto_print := __auto_print (self m);
                __overwrite := __overwrite (self m);
                __file := __file (self m) |};
     world := world m |}.

(** What an advance writes for a snapshot with the text [text]. *)
Definition status_line (e : ETA T) (text : string) : list (option string * string) :=
  if __auto_print e
  then [(__file e, if __overwrite e then CR +:+ text else text +:+ LF)]
  else [].

End Untouched.

(** The calls of [__next__] among the calls. *)
Fixpoint next_calls (cs : list call) : nat :=
  match cs with
  | [] => 0
  | CallNext :: cs' => S (next_calls cs')
  | _ :: cs' => next_calls cs'
  end.

(** ** The library functions, on values computed with Python *)

Example timedelta_str_examples :
  map (fun us => timedelta_str (Timedelta us))
    [0; 2000000; 1500000; -1; -500000; 86400000000; 176523000005;
     -172800000001; 90000000000]
  = ["0:00:00"; "0:00:02"; "0:00:01.500000"; "-1 day, 23:59:59.999999";
     "-1 day, 23:59:59.500000"; "1 day, 0:00:00"; "2 days, 1:02:03.000005";
     "-3 days, 23:59:59.999999"; "1 day, 1:00:00"]%string.
Proof. vm_compute. reflexivity. Qed.

Example divide_and_round_examples :
  map (fun p => divide_and_round (fst p) (snd p))
    [(7, 2); (5, 2); (-7, 2); (-5, 2); (7, -2); (1, 3); (2, 3); (3, 2);
     (-3, 2); (1, 2); (-1, 2)]
  = [4; 2; -4; -2; -4; 0; 1; 2; -2; 0; 0].
Proof. vm_compute. reflexivity. Qed.

Example format_1f_examples :
  map Binary64.format
    [0.25; 0.75; 0.125; 2.5; 1e22; -0.03125; 100; -150; 0; -0; infinity;
     neg_infinity; nan]%float
  = ["0.2"; "0.8"; "0.1"; "2.5"; "10000000000000000000000.0"; "-0.0"; "100.0";
     "-150.0"; "0.0"; "-0.0"; "inf"; "-inf"; "nan"]%string.
Proof. vm_compute. reflexivity. Qed.

(** [format((a / b) * 100, '.1f')], and the two errors of [a / b]. *)
Example percent_examples :
  map (fun p => format_1f <$> ETA.percent (F:=float) (fst p) (snd p))
    [(1, 3); (2, 3); (4, 3); (1, 8); (1, 16); (3, 16); (0, -5); (3, 0);
     (10 ^ 400, 3)]
  = [Ok "33.3"; Ok "66.7"; Ok "133.3"; Ok "12.5"; Ok "6.2"; Ok "18.8";
     Ok "-0.0"; Raise ZeroDivisionError; Raise OverflowError]%string.
Proof. vm_compute. reflexivity. Qed.

(** ** Reasoning about methods *)

Lemma append_assoc (a b c : string) : (a +:+ b) +:+ c = a +:+ (b +:+ c).
Proof.
  induction a as [|x a IH]; [reflexivity|].
  change (String x ((a +:+ b) +:+ c) = String x (a +:+ (b +:+ c))).
  now rewrite IH.
Qed.

Create HintDb steady.

(** Python's floats keep the laws. *)
#[global] Instance binary64_laws : PyFloatLaws float.
Proof.
  split.
  - intros a. cbn. unfold Binary64.truediv. now destruct (Z.abs a).
  - intros a b e. cbn. unfold Binary64.truediv.
    destruct a, b; cbv [Z.abs]; cbn; intros E; try discriminate E;
      try (injection E as <-; now left);
      match type of E with context [if ?c then _ else _] => destruct c end;
      try discriminate E;
      injection E as <-; right; split; first [reflexivity | discriminate].
  - intros z e. cbn. unfold Binary64.of_int. intros E.
    match type of E with context [if ?c then _ else _] => destruct c end;
      [injection E as <-; reflexivity | discriminate E].
Qed.

Section MonadFacts.
Context {T F : Type}.
Implicit Types m : Machine T F.

Lemma bind_Ok {A B} (c : M (T:=T) (F:=F) A) (k : A -> M B) m b m' :
  (c ≫= k) m = (Ok b, m') ->
  exists a m1, c m = (Ok a, m1) /\ k a m1 = (Ok b, m').
Proof.
  unfold mbind, M_bind. destruct (c m) as [[a|e] m1]; [eauto | discriminate].
Qed.

Lemma bind_run {A B} (c : M (T:=T) (F:=F) A) (k : A -> M B) m a m1 :
  c m = (Ok a, m1) -> (c ≫= k) m = k a m1.
Proof. intros E. unfold mbind, M_bind. now rewrite E. Qed.

Lemma bind_raise {A B} (c : M (T:=T) (F:=F) A) (k : A -> M B) m e m1 :
  c m = (Raise e, m1) -> (c ≫= k) m = (Raise e, m1).
Proof. intros E. unfold mbind, M_bind. now rewrite E. Qed.

(** A run that returns [a], with the machine it leaves. *)
Lemma run_eq {A} (c : M (T:=T) (F:=F) A) m a :
  fst (c m) = Ok a -> c m = (Ok a, snd (c m)).
Proof. destruct (c m); cbn; now intros ->. Qed.

Lemma bind_Raise {A B} (c : M (T:=T) (F:=F) A) (k : A -> M B) m e m' :
  (c ≫= k) m = (Raise e, m') ->
  c m = (Raise e, m') \/
  exists a m1, c m = (Ok a, m1) /\ k a m1 = (Raise e, m').
Proof.
  unfold mbind, M_bind. destruct (c m) as [[a|e'] m1]; intros E; [right; eauto | left; now inversion E].
Qed.

Lemma lift_Ok {A} (r : result A) m a m' :
  lift r m = (Ok a, m') -> r = Ok a /\ m' = m.
Proof. unfold lift. intros E. now inversion E. Qed.

Lemma ret_Ok {A} (a b : A) m m' :
  (mret a : M A) m = (Ok b, m') -> b = a /\ m' = m.
Proof. unfold mret, M_ret. intros E. now inversion E. Qed.


End MonadFacts.

(** Take a successful run apart, bind by bind. *)
Ltac minv H :=
  lazymatch type of H with
  | get_self _ = (Ok _, _) =>
      cbv [get_self] in H; injection H as <- <-
  | datetime_now _ = (Ok _, _) =>
      cbv [datetime_now get_world set_world mbind M_bind mret M_ret] in H;
      injection H as <- <-
  | alloc _ _ = (Ok _, _) =>
      cbv [alloc get_world set_world mbind M_bind mret M_ret] in H;
      injection H as <- <-
  | write _ _ _ = (Ok _, _) =>
      cbv [write get_world set_world mbind M_bind mret M_ret] in H;
      injection H as <-
  | (mbind _ _) _ = (Ok _, _) =>
      let a := fresh "a" in let m := fresh "m" in
      let H1 := fresh "E" in
      apply bind_Ok in H; destruct H as (a & m & H1 & H);
      minv H1; minv H
  | lift _ _ = (Ok _, _) =>
      let E := fresh "E" in
      apply lift_Ok in H; destruct H as [E ->]
  | mret _ _ = (Ok _, _) =>
      let E := fresh "E" in
      apply ret_Ok in H; destruct H as [E ->]; inversion E; subst; try clear E
  | _ => idtac
  end.

Section MethodFacts.
Context {T F : Type} `{PyFloat F}.
Implicit Types (m : Machine T F) (s : Stats F) (e : ETA T).
Local Abbreviation steady := (steady (T:=T) (F:=F)).

Lemma timedelta_truediv_Ok d n d' :
  timedelta_truediv d n = Ok d' -> n <> 0.
Proof.
  unfold timedelta_truediv. destruct (Z.eqb_spec n 0); [discriminate | auto].
Qed.

Lemma stats_Ok m r m' :
  ETA.stats m = (Ok r, m') ->
  exists s,
    snapshot_of (self m) s /\
    self m' = self m /\
    heap (world m') = heap (world m) ++ [s] /\
    r = length (heap (world m)) /\
    out (world m') = out (world m) /\
    clock (world m') = clock (world m) /\
    ticks (world m') = S (S (ticks (world m))).
Proof.
  intros E. unfold ETA.stats in E. minv E. cbn.
  eexists. split; [|repeat split; reflexivity].
  unfold snapshot_of; cbn. repeat split; eauto using timedelta_truediv_Ok.
Qed.

(** *** What no method undoes *)

#[global] Instance evolves_preorder : PreOrder (evolves (T:=T) (F:=F)).
Proof.
  split.
  - intros m. unfold evolves.
    refine (conj _ (conj _ (conj _ (conj _ _)))); try reflexivity; easy.
  - intros m1 m2 m3 (Hh & Ht & Hd & Hc & Hi) (Hh' & Ht' & Hd' & Hc' & Hi').
    unfold evolves.
    refine (conj _ (conj _ (conj _ (conj _ _)))); try congruence; try lia; auto.
    now transitivity (heap (world m2)).
Qed.

Lemma steady_ret {A} (a : A) : steady (mret a).
Proof. intros m. reflexivity. Qed.

Lemma steady_lift {A} (r : result A) : steady (lift r).
Proof. intros m. reflexivity. Qed.

Lemma steady_bind {A B} (c : M (T:=T) (F:=F) A) (k : A -> M B) :
  steady c -> (forall a, steady (k a)) -> steady (c ≫= k).
Proof.
  intros Hc Hk m. specialize (Hc m). unfold after in *.
  unfold mbind, M_bind. destruct (c m) as [[a|e] m1]; cbn in *; [|exact Hc].
  etransitivity; [exact Hc | apply Hk].
Qed.

Lemma steady_get_self : steady get_self.
Proof. intros m. reflexivity. Qed.

Lemma steady_datetime_now : steady datetime_now.
Proof. intros m. unfold evolves; cbn.
  refine (conj _ (conj _ (conj _ (conj _ _)))); try reflexivity; easy. Qed.

Lemma steady_alloc s : steady (alloc s).
Proof.
  intros m. unfold evolves; cbn.
  refine (conj _ (conj _ (conj _ (conj _ _)))); try reflexivity; try easy.
  now apply prefix_app_r.
Qed.

Lemma steady_deref r : steady (deref r).
Proof.
  intros m. unfold after, deref, get_world, mbind, M_bind; cbn.
  destruct (heap (world m) !! r); reflexivity.
Qed.

Lemma steady_write file text : steady (write file text).
Proof. intros m. unfold evolves; cbn.
  refine (conj _ (conj _ (conj _ (conj _ _)))); try reflexivity; easy. Qed.

Lemma steady_increment_done : steady ETA.increment_done.
Proof.
  intros m. unfold evolves.
  refine (conj _ (conj _ (conj _ (conj _ _)))); try reflexivity; try easy.
  unfold after, ETA.increment_done, get_self, set_self, mbind, M_bind; cbn. lia.
Qed.

Lemma steady_next_iterable : steady ETA.next_iterable.
Proof.
  intros m. unfold after, ETA.next_iterable, get_self, mbind, M_bind; cbn.
  destruct (__iterable (self m)) eqn:E; cbn; [reflexivity|].
  unfold evolves; cbn.
  refine (conj _ (conj _ (conj _ (conj _ _)))); try reflexivity; congruence.
Qed.

#[local] Hint Resolve steady_ret steady_lift steady_get_self steady_datetime_now
  steady_alloc steady_deref steady_write steady_increment_done
  steady_next_iterable : steady.

Ltac steady :=
  repeat first
    [ solve [auto with steady]
    | apply steady_bind; [|intros]
    | match goal with
      | |- steady (if ?b then _ else _) => destruct b
      | |- steady (match ?x with _ => _ end) => destruct x
      end ].

Lemma steady_str r : steady (Stats.__str__ r).
Proof. unfold Stats.__str__. steady. Qed.

Lemma steady_print r file : steady (Stats.print r file).
Proof. unfold Stats.print. steady. Qed.

Lemma steady_print_refresh r file : steady (Stats.print_refresh r file).
Proof. unfold Stats.print_refresh. steady. Qed.

Lemma steady_dict r : steady (Stats.dict r).
Proof. unfold Stats.dict. steady. Qed.

Lemma steady_stats : steady ETA.stats.
Proof. unfold ETA.stats. steady. Qed.

Lemma steady_next : steady ETA.__next__.
Proof. unfold ETA.__next__. steady. Qed.

Lemma evolves_run_call c m : evolves m (run_call c m).
Proof.
  destruct c; cbn;
    [apply steady_next | apply steady_stats | apply steady_str
    | apply steady_print | apply steady_print_refresh | apply steady_dict].
Qed.

Lemma evolves_run_calls cs m : evolves m (run_calls cs m).
Proof.
  revert m. induction cs as [|c cs IH]; intros m; cbn; [reflexivity|].
  etransitivity; [apply evolves_run_call | apply IH].
Qed.

(** *** The methods of [Stats] *)

Lemma deref_run r m : deref r m = (object m r, m).
Proof.
  unfold deref, object, get_world, mbind, M_bind; cbn.
  now destruct (heap (world m) !! r).
Qed.

Lemma str_run r m :
  Stats.__str__ r m = (object m r ≫= spec_text, m).
Proof.
  unfold Stats.__str__. unfold mbind at 1, M_bind. rewrite deref_run.
  destruct (object m r) as [s|e]; [|reflexivity].
  change (Ok s ≫= spec_text) with (spec_text s). unfold spec_text.
  destruct (format_spec_1f (percentage (done s))) as [p|e]; [|reflexivity].
  unfold mbind, M_bind, lift, result_mbind, result_bind, mret, M_ret, result_ret.
  rewrite !append_assoc. reflexivity.
Qed.

Lemma print_run r file m :
  Stats.print r file m =
    match object m r ≫= spec_text with
    | Ok text => (Ok tt, written file (text +:+ LF) m)
    | Raise e => (Raise e, m)
    end.
Proof.
  unfold Stats.print. unfold mbind at 1, M_bind. rewrite str_run.
  now destruct (object m r ≫= spec_text).
Qed.

Lemma print_refresh_run r file m :
  Stats.print_refresh r file m =
    match object m r ≫= spec_text with
    | Ok text => (Ok tt, written file (CR +:+ text) m)
    | Raise e => (Raise e, m)
    end.
Proof.
  unfold Stats.print_refresh. unfold mbind at 1, M_bind. rewrite str_run.
  now destruct (object m r ≫= spec_text).
Qed.

Lemma dict_run r m :
  Stats.dict r m = (asdict_Stats <$> object m r, m).
Proof.
  unfold Stats.dict. unfold mbind at 1, M_bind. rewrite deref_run.
  now destruct (object m r).
Qed.

(** *** [ETA.__next__] *)

Lemma increment_done_run m :
  ETA.increment_done m = (Ok tt, after ETA.increment_done m).
Proof. reflexivity. Qed.

Lemma done_after_increment m :
  __done (self (after ETA.increment_done m)) = __done (self m) + 1.
Proof. reflexivity. Qed.

(** On an exhausted iterator [__next__] raises [StopIteration], after the
    increment. *)
Lemma next_exhausted m :
  __iterable (self m) = [] ->
  ETA.__next__ m = (Raise StopIteration, after ETA.increment_done m).
Proof.
  intros E. unfold ETA.__next__.
  rewrite (bind_run _ _ _ _ _ (increment_done_run m)).
  apply bind_raise.
  unfold ETA.next_iterable, after, ETA.increment_done, get_self, set_self,
    mbind, M_bind. cbn.
  now rewrite E.
Qed.

Lemma next_Ok m x r m' :
  ETA.__next__ m = (Ok (x, r), m') ->
  exists xs s,
    __iterable (self m) = x :: xs /\
    __iterable (self m') = xs /\
    __done (self m') = __done (self m) + 1 /\
    __total (self m') = __total (self m) /\
    snapshot_of (self m') s /\
    heap (world m') = heap (world m) ++ [s] /\
    r = length (heap (world m)).
Proof.
  intros E. unfold ETA.__next__ in E.
  apply bind_Ok in E as ([] & m1 & E1 & E).
  rewrite increment_done_run in E1. injection E1 as <-.
  apply bind_Ok in E as (x' & m2 & E2 & E).
  apply bind_Ok in E as (r' & m3 & E3 & E).
  apply bind_Ok in E as (e & m4 & E4 & E).
  apply bind_Ok in E as ([] & m5 & E5 & E).
  minv E. minv E4.
  unfold ETA.next_iterable, after, ETA.increment_done, get_self, set_self,
    lift, mbind, M_bind in E2. cbn in E2.
  destruct (__iterable (self m)) as [|y xs] eqn:Ei; [discriminate|].
  cbn in E2. injection E2 as -> <-.
  apply stats_Ok in E3 as (s & Hs & Hself & Hheap & -> & _ & _).
  assert (self m5 = self m3 /\ heap (world m5) = heap (world m3)) as [Hs' Hh'].
  { destruct (__auto_print (self m3) && __overwrite (self m3));
      [rewrite print_refresh_run in E5
      |destruct (__auto_print (self m3) && negb (__overwrite (self m3)));
         [rewrite print_run in E5 | minv E5; auto]];
      destruct (object m3 _ ≫= spec_text); inversion E5; auto. }
  exists xs, s. rewrite Hs', Hh', Hself, Hheap. cbn. auto 10.
Qed.

(** What else a successful advance leaves: the start time and the clock as
    they were, and two readings of the clock made. *)
Lemma next_Ok_frame m x r m' :
  ETA.__next__ m = (Ok (x, r), m') ->
  __start_time (self m') = __start_time (self m) /\
  clock (world m') = clock (world m) /\
  ticks (world m') = S (S (ticks (world m))).
Proof.
  intros E. unfold ETA.__next__ in E.
  apply bind_Ok in E as ([] & m1 & E1 & E).
  rewrite increment_done_run in E1. injection E1 as <-.
  apply bind_Ok in E as (x' & m2 & E2 & E).
  apply bind_Ok in E as (r' & m3 & E3 & E).
  apply bind_Ok in E as (e & m4 & E4 & E).
  apply bind_Ok in E as ([] & m5 & E5 & E).
  minv E. minv E4.
  unfold ETA.next_iterable, after, ETA.increment_done, get_self, set_self,
    lift, mbind, M_bind in E2. cbn in E2.
  destruct (__iterable (self m)) as [|y xs] eqn:Ei; [discriminate|].
  cbn in E2. injection E2 as -> <-.
  apply stats_Ok in E3 as (s & _ & Hself & _ & _ & _ & Hclock & Hticks).
  assert (self m5 = self m3 /\ clock (world m5) = clock (world m3) /\
          ticks (world m5) = ticks (world m3)) as (Hs' & Hc' & Ht').
  { destruct (__auto_print (self m3) && __overwrite (self m3));
      [rewrite print_refresh_run in E5
      |destruct (__auto_print (self m3) && negb (__overwrite (self m3)));
         [rewrite print_run in E5 | minv E5; auto]];
      destruct (object m3 _ ≫= spec_text); inversion E5; auto. }
  rewrite Hs', Hc', Ht', Hself, Hclock, Hticks. cbn. auto.
Qed.

(** *** Advances in a row *)

Lemma advances_Ok k : forall m rs m',
  advances k m = (Ok rs, m') ->
  length rs = k /\
  __done (self m') = __done (self m) + Z.of_nat k /\
  __total (self m') = __total (self m) /\
  __iterable (self m) = map fst rs ++ __iterable (self m') /\
  heap (world m) `prefix_of` heap (world m') /\
  forall i x r, rs !! i = Some (x, r) ->
    exists s, heap (world m') !! r = Some s /\
      absolute (done s) = __done (self m) + Z.of_nat i + 1 /\
      absolute (remaining s) = __total (self m) - (__done (self m) + Z.of_nat i + 1) /\
      absolute (total s) = __total (self m).
Proof.
  induction k as [|k IH]; intros m rs m' E; cbn in E.
  - minv E. cbn. repeat split; try reflexivity; try lia.
    intros i x r Hi. discriminate.
  - apply bind_Ok in E as (rs' & m1 & E1 & E).
    apply bind_Ok in E as ([x r] & m2 & E2 & E). minv E.
    apply IH in E1 as (Hlen & Hdone & Htot & Hit & Hpre & Hsn).
    apply next_Ok in E2 as (xs & s & Hi & Hi' & Hd & Ht & Hs & Hh & ->).
    destruct Hs as (Hst & Hsd & Hsr & _).
    refine (conj _ (conj _ (conj _ (conj _ (conj _ _))))).
    + rewrite length_app. cbn. lia.
    + lia.
    + congruence.
    + rewrite Hit, Hi, Hi', map_app. cbn. now rewrite <- app_assoc.
    + rewrite Hh. now apply prefix_app_r.
    + intros i y r Hr. apply lookup_app_Some in Hr as [Hr | [Hge Hr]].
      * destruct (Hsn _ _ _ Hr) as (s' & Hl & Hrest).
        exists s'. split; [|exact Hrest].
        rewrite Hh. apply lookup_app_l_Some. exact Hl.
      * destruct (i - length rs')%nat as [|j] eqn:Ej; [|discriminate].
        cbn in Hr. injection Hr as <- <-.
        exists s. split; [rewrite Hh; apply list_lookup_middle; reflexivity|].
        assert (i = k) as -> by lia.
        rewrite Hsd, Hsr, Hst, Hd, Ht, Hdone, Htot. repeat split; lia.
Qed.

End MethodFacts.

(** ** The session *)

Example session_init {F} `{PyFloat F} :
  ETA.__init__ (Sized [10; 20; 30]) None false true None new_world
  = Ok (session (F:=F)).
Proof. reflexivity. Qed.

(** The first advance of the session, with Python's floats: one third done,
    and two seconds to go at one second per item. *)
Example session_first_advance :
  let '(r, m) := ETA.__next__ (session (F:=float)) in
  r = Ok (10, 0%nat) /\
  fst (Stats.__str__ 0%nat m) = Ok "1/3 = 33.3%, remaining 0:00:02"%string.
Proof. vm_compute. split; reflexivity. Qed.

(** [ETA([10, 20], total=5, auto_print=False)]: after the two advances 2
    are done and 3 remain, and the third advance raises [StopIteration]. *)
Example explicit_total_of_five :
  match ETA.__init__ (F:=float) (Sized [10; 20]) (Some 5) false true None new_world with
  | Ok m0 =>
      let '(r2, m2) := advances 2 m0 in
      let '(r3, m3) := ETA.__next__ m2 in
      (exists x r s, last <$> r2 = Ok (Some (x, r)) /\ object m2 r = Ok s /\
         absolute (total s) = 5 /\ absolute (done s) = 2 /\
         absolute (remaining s) = 3) /\
      r3 = Raise StopIteration
  | Raise _ => False
  end.
Proof. vm_compute. split; [do 3 eexists; repeat split; reflexivity | reflexivity]. Qed.

(** ** Construction *)

Section Construction.
Context {T F : Type} `{PyFloat F}.

(** An explicit total other than zero is the total. *)
Lemma init_explicit_total (iterable : Iterable T) t auto_print overwrite file (w : World F) :
  t <> 0 ->
  exists m, ETA.__init__ iterable (Some t) auto_print overwrite file w = Ok m /\
            __total (self m) = t.
Proof.
  intros Ht. unfold ETA.__init__.
  destruct (Z.eqb_spec t 0); [contradiction|]. eexists; split; reflexivity.
Qed.

(** The total [0] counts as no total: the length is asked for. *)
Lemma init_zero_total (iterable : Iterable T) auto_print overwrite file (w : World F) :
  ETA.__init__ iterable (Some 0) auto_print overwrite file w
  = ETA.__init__ iterable None auto_print overwrite file w.
Proof. reflexivity. Qed.


End Construction.

(** C2, as the code has it: an explicit total of [0] is not used.  With a
    sequence of three items [ETA(..., total=0)] takes the length 3 for the
    total, and with a plain iterator it raises [TypeError], the error for a
    total that is [None]. *)
Theorem init_total_zero_is_ignored :
  (exists m, ETA.__init__ (F:=float) (Sized [10; 20; 30]) (Some 0) false true None new_world = Ok m
             /\ __total (self m) = 3) /\
  ETA.__init__ (F:=float) (Unsized [10; 20; 30]) (Some 0) false true None new_world
    = Raise TypeError.
Proof. split; [eexists; split; reflexivity | reflexivity]. Qed.

(** C5: with no total and an iterable that has no [__len__], [ETA(...)]
    raises [TypeError] (the specification's InvalidArgument); the result of
    a raise carries no instance, and the world is as it was. *)
Theorem init_without_length_raises {T F : Type} `{PyFloat F}
    (xs : list T) (auto_print overwrite : bool) (file : option string) (w : World F) :
  ETA.__init__ (Unsized xs) None auto_print overwrite file w = Raise TypeError.
Proof. reflexivity. Qed.

(** ** Advancing *)

(** C1, as the code has it: the fourth advance over three items raises
    [StopIteration], and it has incremented the counter first, so that
    [__done] is 4 and a snapshot taken then counts 4 done and -1 remaining. *)
Theorem next_after_exhaustion_increments_done :
  let '(r3, m3) := advances 3 (session (F:=float)) in
  let '(r4, m4) := ETA.__next__ m3 in
  let '(r5, m5) := ETA.stats m4 in
  (exists rs, r3 = Ok rs /\ length rs = 3%nat) /\
  __done (self m3) = 3 /\
  r4 = Raise StopIteration /\
  __done (self m4) = 4 /\
  exists s, (r5 ≫= fun r => object m5 r) = Ok s /\
            absolute (done s) = 4 /\ absolute (remaining s) = -1.
Proof.
  vm_compute. repeat split; eexists; repeat split; reflexivity.
Qed.

(** C3: every snapshot the estimator produces, by a call of [stats] or by
    an advance, in any state, has [done.absolute + remaining.absolute =
    total.absolute]. *)
Theorem snapshot_counts_add_up {T F : Type} `{PyFloat F}
    (m m' : Machine T F) (r : ref) :
  ETA.stats m = (Ok r, m') \/ (exists x, ETA.__next__ m = (Ok (x, r), m')) ->
  exists s, heap (world m') !! r = Some s /\
            absolute (done s) + absolute (remaining s) = absolute (total s).
Proof.
  intros [E | [x E]].
  - apply stats_Ok in E as (s & (Ht & Hd & Hr & _) & _ & Hh & -> & _).
    exists s. split; [rewrite Hh; now apply list_lookup_middle | lia].
  - apply next_Ok in E as (xs & s & _ & _ & _ & _ & (Ht & Hd & Hr & _) & Hh & ->).
    exists s. split; [rewrite Hh; now apply list_lookup_middle | lia].
Qed.

Lemma snapshot_counts_add_up_witness :
  exists s, heap (world (after ETA.__next__ (session (F:=float)))) !! 0%nat = Some s /\
            absolute (done s) + absolute (remaining s) = absolute (total s).
Proof.
  apply (snapshot_counts_add_up session).
  right. exists 10. apply run_eq. vm_compute. reflexivity.
Defined.

(** C4: a sequence of [N] items and no explicit total give an estimator
    whose total is [N]; and when [k] advances in a row have succeeded, the
    snapshot of the last one counts [k] done and [N - k] remaining of [N],
    with [k <= N]. *)
Theorem counts_after_advances {T F : Type} `{PyFloat F}
    (xs : list T) (auto_print overwrite : bool) (file : option string) (w : World F) :
  let N := Z.of_nat (length xs) in
  exists m0,
    ETA.__init__ (Sized xs) None auto_print overwrite file w = Ok m0 /\
    __total (self m0) = N /\
    forall (k : nat) rs m x r,
      advances k m0 = (Ok rs, m) ->
      last rs = Some (x, r) ->
      Z.of_nat k <= N /\
      exists s, heap (world m) !! r = Some s /\
        absolute (total s) = N /\
        absolute (done s) = Z.of_nat k /\
        absolute (remaining s) = N - Z.of_nat k.
Proof.
  intros N. eexists. split; [reflexivity|]. split; [reflexivity|].
  intros k rs m x r E Hlast.
  apply advances_Ok in E as (Hlen & _ & _ & Hit & _ & Hsn). cbn in Hit, Hsn.
  rewrite last_lookup, Hlen in Hlast.
  split.
  - apply (f_equal length) in Hit. rewrite length_app, length_map in Hit.
    unfold N. lia.
  - destruct (Hsn _ _ _ Hlast) as (s & Hl & Hd & Hr & Ht).
    exists s. destruct k as [|k]; [subst; destruct rs; discriminate|].
    cbn in Hd, Hr. unfold len in *. cbn in Ht, Hd, Hr.
    repeat split; [exact Hl | exact Ht | lia | fold N in Hr |- *; lia].
Qed.

Lemma counts_after_advances_witness :
  exists s, heap (world (after (advances 2) (session (F:=float)))) !! 1%nat = Some s /\
    absolute (total s) = 3 /\ absolute (done s) = 2 /\ absolute (remaining s) = 1.
Proof.
  destruct (counts_after_advances (F:=float) [10; 20; 30] false true None new_world)
    as (m0 & Hinit & _ & Hadv).
  rewrite session_init in Hinit. injection Hinit as <-.
  apply (Hadv 2%nat [(10, 0%nat); (20, 1%nat)] _ 20 1%nat);
    [apply run_eq|]; vm_compute; reflexivity.
Defined.

(** ** What a method can raise *)

(** Take a run that raised apart: one goal for each place it can come from. *)
Ltac rinv H :=
  lazymatch type of H with
  | get_self _ = (Raise _, _) => cbv [get_self] in H; discriminate H
  | datetime_now _ = (Raise _, _) =>
      cbv [datetime_now get_world set_world mbind M_bind mret M_ret] in H;
      discriminate H
  | alloc _ _ = (Raise _, _) =>
      cbv [alloc get_world set_world mbind M_bind mret M_ret] in H;
      discriminate H
  | mret _ _ = (Raise _, _) => cbv [mret M_ret] in H; discriminate H
  | (mbind _ _) _ = (Raise _, _) =>
      let a := fresh "a" in let m := fresh "m" in
      let H1 := fresh "E" in
      apply bind_Raise in H; destruct H as [H | (a & m & H1 & H)];
      [rinv H | minv H1; rinv H]
  | lift _ _ = (Raise _, _) =>
      let E := fresh "E" in
      unfold lift in H; injection H as H E
  | _ => idtac
  end.

Lemma new_delta_raises us e : new_delta us = Raise e -> e = OverflowError.
Proof.
  unfold new_delta. cbv zeta.
  destruct (_ && _); [discriminate | now intros [= <-]].
Qed.

Lemma new_datetime_raises us e : new_datetime us = Raise e -> e = OverflowError.
Proof.
  unfold new_datetime.
  destruct (_ && _); [discriminate | now intros [= <-]].
Qed.

Lemma timedelta_truediv_raises d n e :
  timedelta_truediv d n = Raise e ->
  e = OverflowError \/ (e = ZeroDivisionError /\ n = 0).
Proof.
  unfold timedelta_truediv. destruct (Z.eqb_spec n 0).
  - intros [= <-]. now right.
  - intros E. left. now apply new_delta_raises in E.
Qed.

Section Raises.
Context {T F : Type} `{PyFloatLaws F}.
Implicit Types (m : Machine T F) (s : Stats F).

Lemma percent_raises a b e :
  ETA.percent a b = Raise e ->
  e = OverflowError \/ (e = ZeroDivisionError /\ b = 0).
Proof.
  unfold ETA.percent. destruct (int_truediv a b) as [q|e'] eqn:Eq; cbn.
  - destruct (int_to_float 100) as [c|e'] eqn:Ec; cbn; [discriminate|].
    intros [= <-]. left. now apply int_to_float_raises in Ec.
  - intros [= <-]. apply int_truediv_raises in Eq as [[-> ->] | [-> _]]; auto.
Qed.

(** [stats] raises [ZeroDivisionError] when nothing is done yet or the total
    is zero, and beside it only [OverflowError]. *)
Lemma stats_raises m e m' :
  ETA.stats m = (Raise e, m') ->
  e = OverflowError \/
  (e = ZeroDivisionError /\ (__done (self m) = 0 \/ __total (self m) = 0)).
Proof.
  intros E. unfold ETA.stats in E. rinv E;
    match goal with
    | E : datetime_sub _ _ = Raise _ |- _ => apply new_delta_raises in E; auto
    | E : timedelta_mul _ _ = Raise _ |- _ => apply new_delta_raises in E; auto
    | E : datetime_add _ _ = Raise _ |- _ => apply new_datetime_raises in E; auto
    | E : timedelta_truediv _ _ = Raise _ |- _ =>
        apply timedelta_truediv_raises in E as [-> | [-> ?]]; auto
    | E : ETA.percent _ _ = Raise _ |- _ =>
        apply percent_raises in E as [-> | [-> ?]]; auto
    end.
Qed.

(** The text of a snapshot that [stats] made is there. *)
Lemma spec_text_snapshot (e : ETA T) s :
  snapshot_of e s -> exists text, spec_text s = Ok text.
Proof.
  intros (_ & _ & _ & _ & (p & _ & Hp) & _). unfold spec_text.
  rewrite Hp. cbn. eauto.
Qed.

End Raises.

(** ** The division by the count of done items *)

Section Reachable.
Context {T F : Type} `{PyFloat F}.
Implicit Types m : Machine T F.


End Reachable.


(** A list that is empty when the estimator is built and has an item when
    the estimator is advanced: the total is 0, and the advance divides by
    it. *)
Example grown_list_divides_by_total :
  match ETA.__init__ (F:=float) {| its_len := Some 0%nat; its_items := [1] |}
          None false true None new_world with
  | Ok m0 =>
      __total (self m0) = 0 /\ fst (ETA.__next__ m0) = Raise ZeroDivisionError
  | Raise _ => False
  end.
Proof. vm_compute. split; reflexivity. Qed.



(** ** The mapping of a snapshot *)

(** C7, as the code has it: in the mapping of the first snapshot of the
    session the facets have the keys [time], [absolute] and [percentage];
    there is no [duration] and no [count]. *)
Lemma dict_has_no_duration_and_count :
  exists v, fst (Stats.dict 0%nat (after ETA.__next__ (session (F:=float)))) = Ok v /\
    (dict_get "total" v ≫= dict_keys) = Some ["time"; "absolute"; "percentage"]%string /\
    (dict_get "total" v ≫= dict_get "duration") = None /\
    (dict_get "total" v ≫= dict_get "count") = None /\
    ~ spec_mapping v.
Proof.
  eexists. split; [vm_compute; reflexivity|].
  split; [reflexivity|]. split; [reflexivity|]. split; [reflexivity|].
  intros [_ Hfacets].
  destruct (Hfacets "total"%string) as (facet & Hget & Hkeys);
    [apply list_elem_of_here|].
  vm_compute in Hget. injection Hget as <-. discriminate Hkeys.
Qed.

(** C7, amended: the mapping of a snapshot has exactly the four fields
    [total], [remaining], [done] and [eta], in this order; the first three
    are mappings with exactly the fields [time], [absolute] and [percentage]
    that hold the values of the facet, and [eta] holds the time stamp.  The
    export changes nothing. *)
Theorem dict_fields {T F : Type} `{PyFloat F}
    (m : Machine T F) (r : ref) (s : Stats F) :
  heap (world m) !! r = Some s ->
  exists v ft fr fd,
    Stats.dict r m = (Ok v, m) /\
    dict_keys v = Some ["total"; "remaining"; "done"; "eta"]%string /\
    dict_get "total" v = Some ft /\ facet_mapping (total s) ft /\
    dict_get "remaining" v = Some fr /\ facet_mapping (remaining s) fr /\
    dict_get "done" v = Some fd /\ facet_mapping (done s) fd /\
    dict_get "eta" v = Some (VDatetime (eta s)).
Proof.
  intros Hs. rewrite dict_run. unfold object. rewrite Hs. cbn.
  do 4 eexists. split; [reflexivity|].
  repeat split; reflexivity.
Qed.

Lemma dict_fields_witness :
  exists v, fst (Stats.dict 0%nat (after ETA.__next__ (session (F:=float)))) = Ok v /\
            dict_keys v = Some ["total"; "remaining"; "done"; "eta"]%string.
Proof.
  destruct (heap (world (after ETA.__next__ (session (F:=float)))) !! 0%nat)
    as [s|] eqn:E; [|vm_compute in E; discriminate E].
  destruct (dict_fields _ _ _ E) as (v & _ & _ & _ & Hrun & Hkeys & _).
  exists v. rewrite Hrun. split; [reflexivity | exact Hkeys].
Defined.

(** ** The text of a snapshot *)

(** C8: the text of a snapshot is that of the specification,
    ["<done_count>/<total_count> = <done_percentage:1 decimal>%, remaining
    <remaining_duration>"], and rendering changes nothing. *)
Theorem str_text {T F : Type} `{PyFloat F}
    (m : Machine T F) (r : ref) (s : Stats F) :
  heap (world m) !! r = Some s ->
  Stats.__str__ r m = (spec_text s, m).
Proof.
  intros Hs. rewrite str_run. unfold object. now rewrite Hs.
Qed.

Lemma str_text_witness :
  fst (Stats.__str__ 0%nat (after ETA.__next__ (session (F:=float))))
  = Ok "1/3 = 33.3%, remaining 0:00:02"%string.
Proof.
  destruct (heap (world (after ETA.__next__ (session (F:=float)))) !! 0%nat)
    as [s|] eqn:E; [|vm_compute in E; discriminate E].
  rewrite (str_text _ _ _ E). vm_compute in E. injection E as <-.
  vm_compute. reflexivity.
Defined.

(** ** Percentages *)

(** *** Rounding to nearest *)

Lemma fexp64_eq z : fexp64 z = Z.max (z - 53) (-1074).
Proof. reflexivity. Qed.

Lemma digits2_size p : digits2_pos p = Pos.size p.
Proof. induction p; cbn; congruence. Qed.

Lemma Zdigits2_bounds m :
  0 < m -> 0 < Zdigits2 m /\ 2 ^ (Zdigits2 m - 1) <= m < 2 ^ Zdigits2 m.
Proof.
  destruct m as [|p|p]; try lia. intros _. cbn [Zdigits2].
  rewrite digits2_size.
  pose proof (Pos.size_gt p) as Hgt. pose proof (Pos.size_le p) as Hle.
  assert (Hpow : Z.pos (2 ^ Pos.size p) = 2 ^ Z.pos (Pos.size p))
    by now rewrite Pos2Z.inj_pow.
  split; [lia|]. split.
  - assert (2 * 2 ^ (Z.pos (Pos.size p) - 1) = 2 ^ Z.pos (Pos.size p)) as H2.
    { rewrite <- Z.pow_succ_r by lia. f_equal. lia. }
    lia.
  - lia.
Qed.

Lemma Zdigits2_le m t : 0 <= m -> 0 <= t -> m < 2 ^ t -> Zdigits2 m <= t.
Proof.
  intros Hm Ht Hlt. destruct (Z.eq_dec m 0) as [->|Hz]; [cbn; lia|].
  destruct (Zdigits2_bounds m) as (Hd & Hlo & _); [lia|].
  destruct (Z.le_gt_cases (Zdigits2 m) t) as [|Hgt]; [assumption|].
  assert (2 ^ t <= 2 ^ (Zdigits2 m - 1)) by (apply Z.pow_le_mono_r; lia). lia.
Qed.

Lemma Zdigits2_ge m t : 0 <= t -> 2 ^ t <= m -> t + 1 <= Zdigits2 m.
Proof.
  intros Ht Hle.
  assert (0 < 2 ^ t) by (apply Z.pow_pos_nonneg; lia).
  destruct (Zdigits2_bounds m) as (Hd & _ & Hhi); [lia|].
  destruct (Z.le_gt_cases (t + 1) (Zdigits2 m)) as [|Hgt]; [assumption|].
  assert (2 ^ Zdigits2 m <= 2 ^ t) by (apply Z.pow_le_mono_r; lia). lia.
Qed.

Lemma shr_1_ok mrs n d : rec_ok mrs n d -> rec_ok (shr_1 mrs) n (2 * d).
Proof.
  destruct mrs as [m r s]. unfold rec_ok. cbn [shr_m shr_r shr_s].
  intros (Hd & Hm & Hn & Hr & Hs).
  destruct m as [|[p|p|]|p]; try lia; cbn [shr_1 shr_m shr_r shr_s];
    (split; [lia|]); (split; [lia|]);
    (split; [lia|]);
    destruct r, s; cbn [orb];
    repeat match goal with
    | H : true = true <-> _ |- _ => destruct H as [H _]; specialize (H eq_refl)
    | H : false = true <-> _ |- _ => destruct H as [_ H]
    end;
    split; split; intros; try discriminate; try reflexivity; try lia;
    try (exfalso; lia).
Qed.

Lemma pow2_xO p : 2 ^ Z.pos p~0 = 2 ^ Z.pos p * 2 ^ Z.pos p.
Proof.
  change (Z.pos p~0) with (2 * Z.pos p).
  replace (2 * Z.pos p) with (Z.pos p + Z.pos p) by lia.
  now rewrite Z.pow_add_r by lia.
Qed.

Lemma pow2_xI p : 2 ^ Z.pos p~1 = 2 * (2 ^ Z.pos p * 2 ^ Z.pos p).
Proof.
  change (Z.pos p~1) with (Z.succ (Z.pos p~0)).
  rewrite Z.pow_succ_r by lia. now rewrite pow2_xO.
Qed.

Lemma iter_shr_1_ok p : forall mrs n d,
  rec_ok mrs n d -> rec_ok (SpecFloat.iter_pos shr_1 p mrs) n (2 ^ Z.pos p * d).
Proof.
  induction p as [p IH|p IH|]; intros mrs n d H; cbn [SpecFloat.iter_pos].
  - apply shr_1_ok, IH, IH in H.
    replace (2 ^ Z.pos p~1 * d) with (2 ^ Z.pos p * (2 ^ Z.pos p * (2 * d))); [exact H|].
    rewrite pow2_xI. ring.
  - apply IH, IH in H.
    replace (2 ^ Z.pos p~0 * d) with (2 ^ Z.pos p * (2 ^ Z.pos p * d)); [exact H|].
    rewrite pow2_xO. ring.
  - apply shr_1_ok in H. exact H.
Qed.

Lemma shr_ok mrs e z n d :
  rec_ok mrs n d -> 0 <= z ->
  exists mrs', shr mrs e z = (mrs', e + z) /\ rec_ok mrs' n (2 ^ z * d).
Proof.
  intros H Hz. destruct z as [|p|p]; try lia.
  - exists mrs. split; [cbn [shr]; now rewrite Z.add_0_r|].
    now replace (2 ^ 0 * d) with d by (rewrite Z.pow_0_r; ring).
  - exists (SpecFloat.iter_pos shr_1 p mrs). split; [reflexivity|]. now apply iter_shr_1_ok.
Qed.

Lemma rec_ok_below m l n d :
  rec_ok (shr_record_of_loc m l) n d -> 0 < d /\ 0 <= m /\ m * d <= n.
Proof.
  assert (shr_m (shr_record_of_loc m l) = m) as Hm by (destruct l as [|[]]; reflexivity).
  unfold rec_ok. rewrite Hm. tauto.
Qed.

Lemma record_of_loc_exact m : 0 <= m -> rec_ok (shr_record_of_loc m loc_Exact) m 1.
Proof. intros Hm. unfold rec_ok. cbn. repeat split; try lia; discriminate. Qed.

Lemma round_nearest_even_ok mrs n d :
  rec_ok mrs n d ->
  let m' := round_nearest_even (shr_m mrs) (loc_of_shr_record mrs) in
  shr_m mrs <= m' <= shr_m mrs + 1 /\ 2 * Z.abs (m' * d - n) <= d.
Proof.
  destruct mrs as [m r s]. unfold rec_ok. cbn [shr_m shr_r shr_s].
  intros (Hd & Hm & Hn & Hr & Hs).
  destruct r, s; cbn [loc_of_shr_record round_nearest_even];
    repeat match goal with
    | H : true = true <-> _ |- _ => destruct H as [H _]; specialize (H eq_refl)
    | H : false = true <-> ?P |- _ =>
        assert (~ P) by (intros HP; apply H in HP; discriminate HP); clear H
    end;
    try destruct (Z.even m); split; lia.
Qed.

(** Rounding to nearest, ties to even, of [n / d * 2 ^ e], given by its
    integer part [m] and the location [l] of the rest, when the exponent [e]
    is not above the one of the format: the result is [V * 2 ^ E], at the
    exponent [E] of the format, within half a unit of it. *)
Lemma binary_round_aux_ok (s : bool) (m e : Z) (l : location) (n d : Z) :
  rec_ok (shr_record_of_loc m l) n d ->
  let E := fexp64 (Zdigits2 m + e) in
  e <= E -> E < 971 ->
  exists V,
    SF_is (binary_round_aux prec emax s m e l) s V E /\
    0 <= V /\
    2 * Z.abs (V * (2 ^ (E - e) * d) - n) <= 2 ^ (E - e) * d.
Proof.
  intros Hrec E He Hov.
  assert (Hm0 : shr_m (shr_record_of_loc m l) = m) by (destruct l as [|[]]; reflexivity).
  assert (Hm : 0 <= m) by (rewrite <- Hm0; apply Hrec).
  assert (Hmn : m * d <= n < (m + 1) * d) by (rewrite <- Hm0; apply Hrec).
  assert (Hd : 0 < d) by apply Hrec.
  destruct (shr_ok _ e (E - e) n d Hrec) as (mrs1 & E1 & Hrec1); [lia|].
  replace (e + (E - e)) with E in E1 by ring.
  unfold binary_round_aux, shr_fexp. fold (fexp64 (Zdigits2 m + e)). fold E.
  rewrite E1.
  pose proof (round_nearest_even_ok _ _ _ Hrec1) as Hround. cbv zeta in Hround.
  set (m1 := shr_m mrs1) in *.
  set (m2 := round_nearest_even m1 (loc_of_shr_record mrs1)) in *.
  destruct Hround as [Hm2 Herr].
  set (k := E - e) in *.
  assert (Hk : 0 <= k) by (unfold k; lia).
  assert (Hpk : 0 < 2 ^ k) by (apply Z.pow_pos_nonneg; lia).
  assert (Hm1 : 0 <= m1 /\ m1 * (2 ^ k * d) <= n < (m1 + 1) * (2 ^ k * d))
    by (split; apply Hrec1).
  destruct Hm1 as [Hm1 Hm1n].
  (* the mantissa has at most 53 digits *)
  assert (Hdig : Zdigits2 m <= k + 53).
  { unfold k, E. rewrite fexp64_eq. lia. }
  assert (Hm1lt : m1 < 2 ^ 53).
  { destruct (Z.eq_dec m 0) as [Hz|Hz].
    - subst m. assert (m1 * (2 ^ k * d) < 1 * d) by lia.
      assert (m1 < 1); [|lia]. nia.
    - destruct (Zdigits2_bounds m) as (_ & _ & Hhi); [lia|].
      assert (2 ^ Zdigits2 m <= 2 ^ (k + 53)) by (apply Z.pow_le_mono_r; lia).
      rewrite Z.pow_add_r in * by lia.
      assert (m1 * (2 ^ k * d) < 2 ^ k * 2 ^ 53 * d) by nia.
      nia. }
  exists m2. split; [|split; [lia | exact Herr]].
  (* the second shift *)
  destruct (Z.eq_dec m2 0) as [Hz|Hz].
  { left. split; [exact Hz|]. rewrite Hz. cbn [Zdigits2].
    assert (fexp prec emax (0 + E) - E <= 0) as Hs.
    { fold (fexp64 (0 + E)). unfold E. rewrite !fexp64_eq. lia. }
    unfold shr. destruct (fexp prec emax (0 + E) - E); try lia; reflexivity. }
  right.
  destruct (Z.eq_dec m2 (2 ^ 53)) as [Hc|Hc].
  { exists (2 ^ 52)%positive, (E + 1).
    assert (Zdigits2 m2 = 54) as Hd2 by (rewrite Hc; reflexivity).
    rewrite Hd2.
    assert (fexp prec emax (54 + E) - E = 1) as ->.
    { fold (fexp64 (54 + E)). unfold E. rewrite !fexp64_eq. lia. }
    rewrite Hc. cbn [shr shr_record_of_loc SpecFloat.iter_pos].
    change (shr_m (shr_1 {| shr_m := 2 ^ 53; shr_r := false; shr_s := false |}))
      with (Z.pos (2 ^ 52)).
    cbv iota beta.
    assert ((E + 1 <=? emax - prec) = true) as -> by (apply Z.leb_le; unfold emax, prec; lia).
    split; [reflexivity|]. split; [lia|]. split.
    - replace (E + 1 - E) with 1 by ring. reflexivity.
    - unfold bounded, canonical_mantissa.
      apply andb_true_intro. split.
      + apply Z.eqb_eq. change (Z.pos (digits2_pos (2 ^ 52))) with 53.
        fold (fexp64 (53 + (E + 1))). unfold E. rewrite !fexp64_eq. lia.
      + apply Z.leb_le. unfold emax, prec. lia. }
  assert (Hm2lt : 0 < m2 < 2 ^ 53) by lia.
  destruct m2 as [|p|p] eqn:Ep; try lia.
  exists p, E.
  assert (Hdp : Zdigits2 (Z.pos p) <= 53) by (apply Zdigits2_le; lia).
  assert (fexp prec emax (Zdigits2 (Z.pos p) + E) - E <= 0) as Hs.
  { fold (fexp64 (Zdigits2 (Z.pos p) + E)). unfold E. rewrite !fexp64_eq. lia. }
  unfold shr.
  assert (Hres : (let (mrs'', e'') :=
            match fexp prec emax (Zdigits2 (Z.pos p) + E) - E with
            | Z.pos p0 => (SpecFloat.iter_pos shr_1 p0 (shr_record_of_loc (Z.pos p) loc_Exact),
                           E + (fexp prec emax (Zdigits2 (Z.pos p) + E) - E))
            | _ => (shr_record_of_loc (Z.pos p) loc_Exact, E)
            end in
          match shr_m mrs'' with
          | 0 => S754_zero s
          | Z.pos m0 => if e'' <=? emax - prec then S754_finite s m0 e'' else S754_infinity s
          | Z.neg _ => S754_nan
          end) = S754_finite s p E).
  { destruct (fexp prec emax (Zdigits2 (Z.pos p) + E) - E); try lia;
      cbn [shr_record_of_loc shr_m];
      assert ((E <=? emax - prec) = true) as -> by (apply Z.leb_le; unfold emax, prec; lia);
      reflexivity. }
  split; [exact Hres|]. split; [lia|]. split.
  - rewrite Z.sub_diag. cbn. lia.
  - unfold bounded, canonical_mantissa. apply andb_true_intro. split.
    + apply Z.eqb_eq. change (Z.pos (digits2_pos p)) with (Zdigits2 (Z.pos p)).
      fold (fexp64 (Zdigits2 (Z.pos p) + E)).
      rewrite fexp64_eq.
      destruct (Z.eq_dec E (-1074)) as [HE|HE]; [lia|].
      (* a normal number: the mantissa has 53 digits *)
      assert (E = Zdigits2 m + e - 53) as HE' by (unfold E in *; rewrite fexp64_eq in *; lia).
      assert (m <> 0) as Hmz.
      { intros ->. cbn in HE'. unfold E in He. lia. }
      destruct (Zdigits2_bounds m) as (Hdm & Hlo & _); [lia|].
      assert (Zdigits2 m - 1 = k + 52) as Hkk by (unfold k; lia).
      rewrite Hkk, Z.pow_add_r in Hlo by lia.
      assert (2 ^ 52 <= m1).
      { assert (2 ^ k * 2 ^ 52 * d < (m1 + 1) * (2 ^ k * d)) by nia.
        assert (2 ^ 52 < m1 + 1); [|lia]. nia. }
      assert (53 <= Zdigits2 (Z.pos p)) by (apply (Zdigits2_ge _ 52); lia).
      assert (-1074 <= E) by (unfold E; rewrite fexp64_eq; lia).
      lia.
    + apply Z.leb_le. unfold emax, prec. lia.
Qed.

(** *** The values, as rational numbers *)

Lemma inject_Z_pos d : 0 < d -> (0 < inject_Z d)%Q.
Proof. intros H. unfold Qlt. cbn. lia. Qed.

Lemma inject_Z_ge1 d : 1 <= d -> (1 <= inject_Z d)%Q.
Proof. intros H. unfold Qle. cbn. lia. Qed.

Lemma pow2_pos z : (0 < 2 ^ z)%Q.
Proof. now apply Qpower_0_lt. Qed.

Lemma pow2_add a b : (2 ^ (a + b) == 2 ^ a * 2 ^ b)%Q.
Proof. now apply Qpower_plus. Qed.

Lemma pow2_le a b : a <= b -> (2 ^ a <= 2 ^ b)%Q.
Proof. intros H. now apply Qpower_le_compat_l. Qed.

Lemma pow2_inject z : 0 <= z -> (inject_Z (2 ^ z) == 2 ^ z)%Q.
Proof. intros H. now rewrite Zpower_Qpower. Qed.

Lemma pow2_pred z : (2 ^ z == 2 * 2 ^ (z - 1))%Q.
Proof.
  replace z with (1 + (z - 1)) at 1 by ring. rewrite pow2_add. reflexivity.
Qed.

Lemma SF_is_value f V E : SF_is f false V E -> (SF2Q f == inject_Z V * 2 ^ E)%Q.
Proof.
  intros [[-> ->] | (m & e & -> & He & HV & _)]; cbn [SF2Q].
  - ring.
  - subst V. rewrite inject_Z_mult, pow2_inject by lia.
    replace e with ((e - E) + E) at 1 by ring. rewrite pow2_add. ring.
Qed.

Lemma SF_is_valid f s V E : SF_is f s V E -> valid_binary f = true.
Proof. now intros [[_ ->] | (m & e & -> & _ & _ & Hb)]. Qed.

(** The rounding of [x = n / d * 2 ^ e], in rationals: the value is on the
    grid of [2 ^ E], within half a step of [x], and so on the same side as
    [x] of every point of the grid. *)
Lemma binary_round_aux_Q (m e : Z) (l : location) (n d : Z) (x : Q) :
  rec_ok (shr_record_of_loc m l) n d ->
  (x == inject_Z n / inject_Z d * 2 ^ e)%Q ->
  let E := fexp64 (Zdigits2 m + e) in
  e <= E -> E < 971 ->
  exists V,
    SF_is (binary_round_aux prec emax false m e l) false V E /\
    0 <= V /\
    (Qabs (inject_Z V * 2 ^ E - x) <= 2 ^ (E - 1))%Q /\
    (forall W, (x <= inject_Z W * 2 ^ E)%Q -> V <= W) /\
    (forall W, (inject_Z W * 2 ^ E <= x)%Q -> W <= V).
Proof.
  intros Hrec Hx E He Hov.
  destruct (binary_round_aux_ok false m e l n d Hrec He Hov) as (V & HV & HV0 & Herr).
  fold E in Herr, HV.
  assert (Hd : 0 < d) by apply Hrec.
  exists V. split; [exact HV|]. split; [exact HV0|].
  set (k := E - e) in *.
  assert (Hk : 0 <= k) by (unfold k; lia).
  assert (Hdq : (0 < inject_Z d)%Q) by now apply inject_Z_pos.
  assert (HE : (2 ^ E == inject_Z (2 ^ k) * 2 ^ e)%Q).
  { rewrite pow2_inject by lia. rewrite <- pow2_add. unfold k.
    now replace (E - e + e) with E by ring. }
  assert (Hdiff : (inject_Z V * 2 ^ E - x ==
                   inject_Z (V * (2 ^ k * d) - n) * (2 ^ e / inject_Z d))%Q).
  { rewrite Hx, HE. unfold Z.sub. rewrite inject_Z_plus, inject_Z_opp, !inject_Z_mult.
    field. intros Hz. rewrite Hz in Hdq. discriminate. }
  assert (Hbound : (Qabs (inject_Z V * 2 ^ E - x) <= 2 ^ (E - 1))%Q).
  { rewrite Hdiff, Qabs_Qmult.
    assert (Hpos : (0 < 2 ^ e / inject_Z d)%Q).
    { apply Qlt_shift_div_l; [exact Hdq|]. rewrite Qmult_0_l. apply pow2_pos. }
    rewrite (Qabs_pos (2 ^ e / inject_Z d)) by now apply Qlt_le_weak.
    change (Qabs (inject_Z (V * (2 ^ k * d) - n)))
      with (inject_Z (Z.abs (V * (2 ^ k * d) - n))).
    assert (Hz : (inject_Z (Z.abs (V * (2 ^ k * d) - n)) * 2 <= inject_Z (2 ^ k * d))%Q).
    { rewrite <- (inject_Z_mult _ 2), <- Zle_Qle. lia. }
    assert (H2 : (2 ^ (E - 1) == inject_Z (2 ^ k * d) * (2 ^ e / inject_Z d) / 2)%Q).
    { assert (H3 : (2 ^ (E - 1) == 2 ^ E / 2)%Q) by (rewrite (pow2_pred E); field).
      rewrite inject_Z_mult, H3, HE. field.
      intros Hzz. rewrite Hzz in Hdq. discriminate. }
    rewrite H2.
    apply Qle_shift_div_l; [reflexivity|].
    rewrite <- Qmult_assoc, (Qmult_comm _ 2), Qmult_assoc.
    apply Qmult_le_compat_r; [exact Hz | now apply Qlt_le_weak]. }
  split; [exact Hbound|].
  assert (Hhalf : (2 ^ E == 2 * 2 ^ (E - 1))%Q) by apply pow2_pred.
  pose proof (pow2_pos (E - 1)) as Hp.
  apply Qabs_Qle_condition in Hbound as [Hlo Hhi].
  rewrite Hhalf in Hlo, Hhi.
  split; intros W HW; rewrite Hhalf in HW.
  - destruct (Z.le_gt_cases V W) as [|Hgt]; [assumption|exfalso].
    assert ((1 <= inject_Z (V - W))%Q) as H1 by (apply inject_Z_ge1; lia).
    unfold Z.sub in H1. rewrite inject_Z_plus, inject_Z_opp in H1.
    set (u := (2 ^ (E - 1))%Q) in *. set (v := inject_Z V) in *.
    set (w := inject_Z W) in *. clearbody u v w. nra.
  - destruct (Z.le_gt_cases W V) as [|Hgt]; [assumption|exfalso].
    assert ((1 <= inject_Z (W - V))%Q) as H1 by (apply inject_Z_ge1; lia).
    unfold Z.sub in H1. rewrite inject_Z_plus, inject_Z_opp in H1.
    set (u := (2 ^ (E - 1))%Q) in *. set (v := inject_Z V) in *.
    set (w := inject_Z W) in *. clearbody u v w. nra.
Qed.

(** The exponent of the format for a number below [2 ^ t]. *)
Lemma fexp64_below (m e n d t : Z) (x : Q) :
  0 < d -> 0 <= m -> m * d <= n ->
  (x == inject_Z n / inject_Z d * 2 ^ e)%Q ->
  (x < 2 ^ t)%Q ->
  e <= fexp64 (Zdigits2 m + e) ->
  fexp64 (Zdigits2 m + e) <= Z.max (t - 53) (-1074).
Proof.
  intros Hd Hm Hmn Hx Hlt He. rewrite fexp64_eq in *.
  destruct (Z.eq_dec m 0) as [->|Hz]; [cbn [Zdigits2] in *; lia|].
  destruct (Zdigits2_bounds m) as (Hdg & Hlo & _); [lia|].
  enough (Zdigits2 m + e <= t) by lia.
  assert (Hdq : (0 < inject_Z d)%Q) by now apply inject_Z_pos.
  assert ((2 ^ (Zdigits2 m - 1 + e) < 2 ^ t)%Q) as Hpow.
  { eapply Qle_lt_trans; [|exact Hlt]. rewrite Hx, pow2_add.
    apply Qmult_le_compat_r; [|apply Qlt_le_weak, pow2_pos].
    rewrite <- pow2_inject by lia.
    apply Qle_shift_div_l; [exact Hdq|].
    rewrite <- inject_Z_mult, <- Zle_Qle. nia. }
  apply Qpower_lt_compat_l_inv in Hpow; [lia | reflexivity].
Qed.

(** *** The division of two integers *)

Lemma new_location_ok (b r q : Z) :
  0 < b -> 0 <= r < b -> 0 <= q ->
  rec_ok (shr_record_of_loc q (new_location b r)) (q * b + r) b.
Proof.
  intros Hb Hr Hq.
  assert (Hloc : new_location b r =
                 if r =? 0 then loc_Exact else loc_Inexact (2 * r ?= b)).
  { unfold new_location, new_location_even, new_location_odd.
    destruct (Z.even b) eqn:Heven; [reflexivity|].
    destruct (r =? 0); [reflexivity|]. f_equal.
    assert (Z.odd b = true) as Hodd by (rewrite <- Z.negb_even, Heven; reflexivity).
    apply Z.odd_spec in Hodd as [c ->].
    destruct (Z.compare_spec (2 * r + 1) (2 * c + 1)),
             (Z.compare_spec (2 * r) (2 * c + 1)); try reflexivity; lia. }
  rewrite Hloc. unfold rec_ok.
  destruct (Z.eqb_spec r 0) as [->|Hz].
  - cbn [shr_record_of_loc shr_m shr_r shr_s].
    repeat split; try lia; try discriminate.
  - destruct (Z.compare_spec (2 * r) b);
      cbn [shr_record_of_loc shr_m shr_r shr_s];
      repeat split; try lia; try discriminate; intros; try lia.
Qed.

Lemma div_core_ok (a b : positive) :
  exists q s l,
    SFdiv_core_binary prec emax (Z.pos a) 0 (Z.pos b) 0 = (q, - s, l) /\
    0 <= s /\ 0 <= q /\
    rec_ok (shr_record_of_loc q l) (Z.pos a * 2 ^ s) (Z.pos b) /\
    - s <= fexp64 (Zdigits2 q + - s).
Proof.
  unfold SFdiv_core_binary.
  set (d1 := Zdigits2 (Z.pos a)). set (d2 := Zdigits2 (Z.pos b)).
  replace (d1 + 0 - (d2 + 0)) with (d1 - d2) by ring.
  change (0 - 0) with 0.
  fold (fexp64 (d1 - d2)).
  set (e' := Z.min (fexp64 (d1 - d2)) 0).
  assert (He' : e' = Z.min (fexp64 (d1 - d2)) 0) by reflexivity. clearbody e'.
  set (s := 0 - e').
  assert (Hse : e' = - s) by (unfold s; ring). clearbody s.
  rewrite Hse in He' |- *. clear Hse e'.
  assert (Hs : 0 <= s) by lia.
  assert (Hm' : forall z, 0 <= z ->
                match z with
                | Z.pos _ => Z.shiftl (Z.pos a) z
                | 0 => Z.pos a
                | Z.neg _ => 0
                end = Z.pos a * 2 ^ z).
  { intros [|p|p] Hz; [rewrite Z.pow_0_r; lia | | lia].
    rewrite Z.shiftl_mul_pow2 by lia. reflexivity. }
  rewrite (Hm' s Hs).
  pose proof (Z.div_eucl_eq (Z.pos a * 2 ^ s) (Z.pos b) ltac:(lia)) as Heq.
  pose proof (Z.mod_pos_bound (Z.pos a * 2 ^ s) (Z.pos b) ltac:(lia)) as Hmod.
  unfold Z.modulo in Hmod.
  destruct (Z.div_eucl (Z.pos a * 2 ^ s) (Z.pos b)) as [q r] eqn:Ediv.
  assert (Hps : 0 < 2 ^ s) by (apply Z.pow_pos_nonneg; lia).
  assert (Hq : 0 <= q) by nia.
  exists q, s, (new_location (Z.pos b) r).
  split; [reflexivity|]. split; [exact Hs|]. split; [exact Hq|]. split.
  - rewrite Heq. replace (Z.pos b * q + r) with (q * Z.pos b + r) by ring.
    apply new_location_ok; lia.
  - rewrite fexp64_eq.
    destruct (Z.le_gt_cases (- s) (-1074)) as [|Hgt]; [lia|].
    (* a normal quotient has 53 digits *)
    assert (Hf : - s <= d1 - d2 - 53) by (rewrite fexp64_eq in He'; lia).
    destruct (Zdigits2_bounds (Z.pos a)) as (_ & Ha & _); [lia|].
    destruct (Zdigits2_bounds (Z.pos b)) as (Hd2 & _ & Hb); [lia|].
    fold d1 in Ha. fold d2 in Hb, Hd2.
    assert (2 ^ (52 + d2) <= 2 ^ (d1 - 1 + s)) as Hpow
      by (apply Z.pow_le_mono_r; lia).
    assert (2 ^ (d1 - 1 + s) <= Z.pos a * 2 ^ s) as Hlow.
    { destruct (Zdigits2_bounds (Z.pos a)) as (Hd1 & _ & _); [lia|]. fold d1 in Hd1.
      rewrite Z.pow_add_r by lia. nia. }
    rewrite Z.pow_add_r in Hpow by lia.
    assert (2 ^ 52 <= q).
    { assert (2 ^ 52 * Z.pos b < (q + 1) * Z.pos b) by nia.
      assert (2 ^ 52 < q + 1); [|lia]. nia. }
    assert (53 <= Zdigits2 q) by (apply (Zdigits2_ge _ 52); lia).
    lia.
Qed.

(** *** The percentage *)

Lemma SF_is_nonneg_finite f V E : SF_is f false V E -> nonneg_finite f.
Proof. now intros [[_ ->] | (m & e & -> & _)]. Qed.

Lemma SF2Q_nonneg f : nonneg_finite f -> (0 <= SF2Q f)%Q.
Proof.
  destruct f as [[]| | |[] m e]; cbn; try easy.
  intros _. rewrite Qmult_1_l.
  apply Qmult_le_0_compat; [easy | apply Qlt_le_weak, pow2_pos].
Qed.

Lemma is_infinity_SF2Prim f s V E :
  SF_is f s V E -> is_infinity (SF2Prim f) = false.
Proof.
  intros H. unfold is_infinity.
  rewrite FloatAxioms.eqb_spec, abs_spec, Prim2SF_SF2Prim by (eapply SF_is_valid; exact H).
  now destruct H as [[_ ->] | (m & e & -> & _)].
Qed.

Lemma quotient_Q (a b s : Z) :
  0 < b -> 0 <= s ->
  (inject_Z a / inject_Z b == inject_Z (a * 2 ^ s) / inject_Z b * 2 ^ (- s))%Q.
Proof.
  intros Hb Hs. rewrite inject_Z_mult, pow2_inject by lia.
  assert (H1 : (2 ^ s * 2 ^ (- s) == 1)%Q).
  { rewrite <- pow2_add. now replace (s + - s) with 0 by ring. }
  pose proof (inject_Z_pos b Hb) as Hbq.
  transitivity (inject_Z a / inject_Z b * (2 ^ s * 2 ^ (- s)))%Q.
  - rewrite H1. ring.
  - field. intros Hz. rewrite Hz in Hbq. discriminate.
Qed.

(** The true division of [a] by [b], for [0 < a <= b]: the float is within
    [2^-54] of the quotient, and it is [1] when the quotient is. *)
Lemma truediv_close (a b : positive) :
  (a <= b)%positive ->
  exists q,
    Binary64.truediv (Z.pos a) (Z.pos b) = Ok q /\
    nonneg_finite (Prim2SF q) /\
    (B2Q q <= 1)%Q /\
    ((a < b)%positive ->
     (Qabs (B2Q q - inject_Z (Z.pos a) / inject_Z (Z.pos b)) <= 2 ^ (-54))%Q) /\
    (a = b -> (B2Q q == 1)%Q).
Proof.
  intros Hab.
  destruct (div_core_ok a b) as (m & s & l & Ecore & Hs & Hm & Hrec & He).
  set (x := (inject_Z (Z.pos a) / inject_Z (Z.pos b))%Q).
  assert (Hx : (x == inject_Z (Z.pos a * 2 ^ s) / inject_Z (Z.pos b) * 2 ^ (- s))%Q)
    by (apply quotient_Q; lia).
  pose proof (inject_Z_pos (Z.pos b) ltac:(lia)) as Hbq.
  assert (Hx1 : (x <= 1)%Q).
  { unfold x. apply Qle_shift_div_r; [exact Hbq|]. rewrite Qmult_1_l.
    rewrite <- Zle_Qle. lia. }
  destruct (rec_ok_below _ _ _ _ Hrec) as (_ & _ & Hmn).
  assert (HE1 : fexp64 (Zdigits2 m + - s) <= -52).
  { etransitivity.
    - apply (fexp64_below m (- s) (Z.pos a * 2 ^ s) (Z.pos b) 1 x); try lia; try assumption.
      eapply Qle_lt_trans; [exact Hx1 | reflexivity].
    - lia. }
  destruct (binary_round_aux_Q m (- s) l _ _ x Hrec Hx He)
    as (V & HV & HV0 & Herr & Hup & Hdown); [lia|].
  set (E := fexp64 (Zdigits2 m + - s)) in *.
  set (f := binary_round_aux prec emax false m (- s) l) in *.
  assert (Hq : Prim2SF (SF2Prim f) = f)
    by (apply Prim2SF_SF2Prim; eapply SF_is_valid; exact HV).
  exists (SF2Prim f). split.
  { unfold Binary64.truediv.
    change (xorb (Z.pos a <? 0) (Z.pos b <? 0)) with false.
    change (Z.abs (Z.pos a)) with (Z.pos a). change (Z.abs (Z.pos b)) with (Z.pos b).
    cbv beta iota zeta.
    unfold Binary64.div_pos. rewrite Ecore. fold f.
    now rewrite (is_infinity_SF2Prim f false V E HV). }
  unfold B2Q. rewrite Hq. rewrite (SF_is_value f V E HV).
  split; [eapply SF_is_nonneg_finite; exact HV|].
  (* one is on the grid *)
  assert (Hone : (inject_Z (2 ^ (- E)) * 2 ^ E == 1)%Q).
  { rewrite pow2_inject by lia. rewrite <- pow2_add.
    now replace (- E + E) with 0 by ring. }
  split; [|split].
  - assert (V <= 2 ^ (- E)) as HVle by (apply Hup; rewrite Hone; exact Hx1).
    rewrite <- Hone. apply Qmult_le_compat_r; [|apply Qlt_le_weak, pow2_pos].
    now rewrite <- Zle_Qle.
  - intros Hlt.
    assert (E <= -53) as HE.
    { unfold E. etransitivity.
      - apply (fexp64_below m (- s) (Z.pos a * 2 ^ s) (Z.pos b) 0 x); try lia; try assumption.
        unfold x. apply Qlt_shift_div_r; [exact Hbq|]. rewrite Qmult_1_l.
        rewrite <- Zlt_Qlt. lia.
      - lia. }
    eapply Qle_trans; [exact Herr|]. apply pow2_le. lia.
  - intros ->.
    assert (Hx1' : (x == 1)%Q).
    { unfold x. field. intros Hz. rewrite Hz in Hbq. discriminate. }
    assert (V = 2 ^ (- E)) as ->.
    { apply Z.le_antisymm.
      - apply Hup. rewrite Hone, Hx1'. apply Qle_refl.
      - apply Hdown. rewrite Hone, Hx1'. apply Qle_refl. }
    exact Hone.
Qed.

(** The product by [100.0] of a float [q] between 0 and 1: within [2^-47]
    of [100 * q], at most 100, and 100 when [q] is 1. *)
Lemma mul_100_close (q : float) :
  nonneg_finite (Prim2SF q) ->
  (B2Q q <= 1)%Q ->
  nonneg_finite (Prim2SF (q * 100)) /\
  (Qabs (B2Q (q * 100) - 100 * B2Q q) <= 2 ^ (-47))%Q /\
  (B2Q (q * 100) <= 100)%Q /\
  ((B2Q q == 1)%Q -> (B2Q (q * 100) == 100)%Q).
Proof.
  intros Hq Hq1. unfold B2Q in *. rewrite mul_spec.
  pose proof (Prim2SF_valid q) as Hvalid.
  change (Prim2SF 100) with (S754_finite false 7036874417766400 (-46)).
  destruct (Prim2SF q) as [[]| | |[] m e]; try contradiction.
  { (* zero *)
    cbn. repeat split; easy. }
  cbn [SF64mul SFmul xorb]. cbn [SF2Q] in *. rewrite Qmult_1_l in *.
  set (m100 := 7036874417766400%positive).
  set (x := (100 * (inject_Z (Z.pos m) * 2 ^ e))%Q) in *.
  assert (Hx : (x == inject_Z (Z.pos (m * m100)) / inject_Z 1 * 2 ^ (e + -46))%Q).
  { unfold x. rewrite Pos2Z.inj_mul, inject_Z_mult, pow2_add.
    assert (H100 : (inject_Z (Z.pos m100) * 2 ^ (-46) == 100)%Q) by reflexivity.
    rewrite <- H100. field. }
  assert (Hx100 : (x <= 100)%Q) by (unfold x; lra).
  (* the mantissa of a valid float has at most 53 digits *)
  cbn [valid_binary SpecFloat.valid_binary] in Hvalid.
  unfold bounded, canonical_mantissa in Hvalid.
  apply andb_prop in Hvalid as [Hcanon _]. apply Z.eqb_eq in Hcanon.
  change (Z.pos (digits2_pos m)) with (Zdigits2 (Z.pos m)) in Hcanon.
  fold (fexp64 (Zdigits2 (Z.pos m) + e)) in Hcanon.
  destruct (Zdigits2_bounds (Z.pos m)) as (Hdm & Hlo & _); [lia|].
  assert (Hrec : rec_ok (shr_record_of_loc (Z.pos (m * m100)) loc_Exact)
                   (Z.pos (m * m100)) 1) by (apply record_of_loc_exact; lia).
  assert (Hdig : Zdigits2 (Z.pos m) + 52 <= Zdigits2 (Z.pos (m * m100))).
  { replace (Zdigits2 (Z.pos m) + 52) with (Zdigits2 (Z.pos m) - 1 + 52 + 1) by ring.
    apply Zdigits2_ge; [lia|].
    rewrite Z.pow_add_r, Pos2Z.inj_mul by lia.
    assert (2 ^ 52 <= Z.pos m100) by (unfold m100; lia).
    assert (0 < 2 ^ (Zdigits2 (Z.pos m) - 1)) by (apply Z.pow_pos_nonneg; lia).
    nia. }
  assert (He : e + -46 <= fexp64 (Zdigits2 (Z.pos (m * m100)) + (e + -46)))
    by (rewrite fexp64_eq; lia).
  assert (HE : fexp64 (Zdigits2 (Z.pos (m * m100)) + (e + -46)) <= -46).
  { etransitivity.
    - apply (fexp64_below (Z.pos (m * m100)) (e + -46) (Z.pos (m * m100)) 1 7 x);
        try lia; try assumption.
      eapply Qle_lt_trans; [exact Hx100 | reflexivity].
    - lia. }
  destruct (binary_round_aux_Q _ _ _ _ _ x Hrec Hx He)
    as (V & HV & HV0 & Herr & Hup & Hdown); [lia|].
  set (E := fexp64 (Zdigits2 (Z.pos (m * m100)) + (e + -46))) in *.
  rewrite (SF_is_value _ V E HV).
  assert (H100 : (inject_Z (100 * 2 ^ (- E)) * 2 ^ E == 100)%Q).
  { rewrite inject_Z_mult, pow2_inject by lia.
    rewrite <- Qmult_assoc, <- pow2_add.
    replace (- E + E) with 0 by ring. reflexivity. }
  split; [eapply SF_is_nonneg_finite; exact HV|].
  split; [|split].
  - eapply Qle_trans; [exact Herr|]. apply pow2_le. lia.
  - assert (V <= 100 * 2 ^ (- E)) as HVle by (apply Hup; rewrite H100; exact Hx100).
    rewrite <- H100. apply Qmult_le_compat_r; [|apply Qlt_le_weak, pow2_pos].
    now rewrite <- Zle_Qle.
  - intros H1.
    assert (Hx' : (x == 100)%Q) by (unfold x; rewrite H1; reflexivity).
    assert (V = 100 * 2 ^ (- E)) as ->.
    { apply Z.le_antisymm.
      - apply Hup. rewrite H100, Hx'. apply Qle_refl.
      - apply Hdown. rewrite H100, Hx'. apply Qle_refl. }
    exact H100.
Qed.

(** The percentage [(a / b) * 100] with Python's floats, for
    [0 <= a <= b]: it can be computed, it lies between 0 and 100, and it is
    within [2^-46] of the exact percentage. *)
Lemma percent_close (a b : Z) :
  0 <= a <= b -> 0 < b ->
  exists p,
    ETA.percent (F:=float) a b = Ok p /\
    (0 <= B2Q p)%Q /\ (B2Q p <= 100)%Q /\
    (Qabs (B2Q p - 100 * inject_Z a / inject_Z b) <= 1 # 2 ^ 46)%Q.
Proof.
  intros [Ha Hab] Hb.
  pose proof (inject_Z_pos b Hb) as Hbq.
  assert (Hbz : ~ (inject_Z b == 0)%Q) by (intros Hz; rewrite Hz in Hbq; discriminate).
  unfold ETA.percent.
  change (int_to_float 100) with (@Ok float 100%float).
  destruct a as [|a|a]; try lia.
  { (* nothing: the quotient is zero *)
    exists (0 * 100)%float. split.
    - destruct b; try lia. reflexivity.
    - assert (B2Q (0 * 100) = 0%Q) as -> by reflexivity.
      split; [easy|]. split; [easy|].
      assert ((0 - 100 * inject_Z 0 / inject_Z b == 0)%Q) as -> by (field; exact Hbz).
      easy. }
  destruct b as [|b|b]; try lia.
  destruct (truediv_close a b) as (q & Eq & Hq & Hq1 & Hlt & Heq); [lia|].
  destruct (mul_100_close q Hq Hq1) as (Hp & Hpq & Hp100 & Hpeq).
  exists (q * 100)%float. split.
  { cbn [int_truediv binary64]. rewrite Eq. reflexivity. }
  split; [now apply SF2Q_nonneg|]. split; [exact Hp100|].
  destruct (Pos.eq_dec a b) as [->|Hne].
  - specialize (Hpeq (Heq eq_refl)). rewrite Hpeq.
    assert ((100 - 100 * inject_Z (Z.pos b) / inject_Z (Z.pos b) == 0)%Q) as ->
      by (field; exact Hbz).
    easy.
  - specialize (Hlt ltac:(lia)).
    set (x := (inject_Z (Z.pos a) / inject_Z (Z.pos b))%Q) in *.
    assert ((B2Q (q * 100) - 100 * inject_Z (Z.pos a) / inject_Z (Z.pos b)
             == (B2Q (q * 100) - 100 * B2Q q) + 100 * (B2Q q - x))%Q) as ->
      by (unfold x; field; exact Hbz).
    eapply Qle_trans; [apply Qabs_triangle|].
    rewrite Qabs_Qmult. change (Qabs 100) with 100%Q.
    assert ((2 ^ (-47) + 100 * 2 ^ (-54) <= 1 # 2 ^ 46)%Q) as Hsum by (vm_compute; discriminate).
    eapply Qle_trans; [|exact Hsum].
    apply Qplus_le_compat; [exact Hpq|].
    apply Qmult_le_l; [reflexivity | exact Hlt].
Qed.

(** *** The two percentages of a snapshot *)





(** With Python's floats the sum can miss 100 in the last place: one third
    and two thirds of the session give 99.99999999999999. *)
Example binary64_percentages_one_third :
  exists s dp rp,
    heap (world (after ETA.__next__ (session (F:=float)))) !! 0%nat = Some s /\
    percentage (done s) = NFloat dp /\
    percentage (remaining s) = NFloat rp /\
    PrimFloat.eqb (dp + rp) 100 = false /\
    PrimFloat.eqb (100 - (dp + rp)) 0x1p-46 = true.
Proof.
  do 3 eexists. split; [vm_compute; reflexivity|].
  repeat split; vm_compute; reflexivity.
Qed.

(** ** Snapshots stay as they are *)

Section Immutable.
Context {T F : Type} `{PyFloat F}.
Implicit Types m : Machine T F.

(** No call changes an object of the heap. *)
Lemma run_calls_keeps_objects cs m r s :
  heap (world m) !! r = Some s ->
  heap (world (run_calls cs m)) !! r = Some s.
Proof.
  intros Hs. destruct (evolves_run_calls cs m) as (Hpre & _).
  now apply (prefix_lookup_Some _ _ _ _ Hs).
Qed.

Lemma str_Ok_object m r text :
  fst (Stats.__str__ r m) = Ok text ->
  exists s, heap (world m) !! r = Some s /\ spec_text s = Ok text.
Proof.
  rewrite str_run. cbn. unfold object.
  destruct (heap (world m) !! r) as [s|]; [eauto | discriminate].
Qed.

End Immutable.

(** C10: rendering a snapshot leaves the whole machine as it was, so that a
    second rendering gives the same text; no call of a method, of the
    estimator or of a snapshot, changes a snapshot that exists; and the text
    of a snapshot is the same after any such calls. *)
Theorem str_is_pure {T F : Type} `{PyFloat F}
    (m : Machine T F) (r : ref) (text : string) (cs : list call) :
  fst (Stats.__str__ r m) = Ok text ->
  after (Stats.__str__ r) m = m /\
  fst (Stats.__str__ r (after (Stats.__str__ r) m)) = Ok text /\
  (forall r' s, heap (world m) !! r' = Some s ->
                heap (world (run_calls cs m)) !! r' = Some s) /\
  fst (Stats.__str__ r (run_calls cs m)) = Ok text.
Proof.
  intros Htext.
  assert (Hsame : after (Stats.__str__ r) m = m)
    by (unfold after; now rewrite str_run).
  split; [exact Hsame|]. split; [now rewrite Hsame|].
  split; [intros r' s; apply run_calls_keeps_objects|].
  apply str_Ok_object in Htext as (s & Hs & Ht).
  rewrite (str_run r (run_calls cs m)). cbn. unfold object.
  now rewrite (run_calls_keeps_objects cs _ _ _ Hs).
Qed.

Lemma str_is_pure_witness :
  fst (Stats.__str__ 0%nat
         (run_calls [CallNext; CallStats; CallPrint 0%nat None; CallNext; CallNext]
            (after ETA.__next__ (session (F:=float)))))
  = Ok "1/3 = 33.3%, remaining 0:00:02"%string.
Proof.
  apply (str_is_pure (after ETA.__next__ (session (F:=float))) 0%nat).
  vm_compute. reflexivity.
Defined.


(** ** Advances succeed *)

Lemma divide_and_round_bounds a b :
  0 <= a -> 0 < b -> 0 <= divide_and_round a b <= a.
Proof.
  intros Ha Hb. unfold divide_and_round. cbv zeta.
  pose proof (Z.div_mod a b ltac:(lia)) as Hdm.
  pose proof (Z.mod_pos_bound a b Hb) as Hm.
  pose proof (Z.div_pos a b Ha Hb) as Hq.
  destruct (0 <? b) eqn:E0; [|apply Z.ltb_ge in E0; lia].
  destruct ((b <? 2 * (a mod b)) || ((2 * (a mod b) =? b) && Z.odd (a / b))) eqn:E.
  - assert (b <= 2 * (a mod b)) as Hhalf.
    { apply orb_true_iff in E as [E | E].
      - apply Z.ltb_lt in E. lia.
      - apply andb_true_iff in E as [E _]. apply Z.eqb_eq in E. lia. }
    split; [lia|]. nia.
  - split; [lia|]. nia.
Qed.

Lemma new_delta_Ok us :
  - (MAX_DELTA_DAYS * US_PER_DAY) <= us < MAX_DELTA_DAYS * US_PER_DAY ->
  new_delta us = Ok (Timedelta us).
Proof.
  intros Hus. unfold new_delta. cbv zeta.
  assert (- MAX_DELTA_DAYS <= us / US_PER_DAY <= MAX_DELTA_DAYS) as [H1 H2].
  { unfold US_PER_DAY, US_PER_SECOND, MAX_DELTA_DAYS in *. split.
    - apply Z.div_le_lower_bound; lia.
    - apply Z.lt_le_incl, Z.div_lt_upper_bound; lia. }
  apply Z.leb_le in H1, H2. now rewrite H1, H2.
Qed.

Lemma new_datetime_Ok us :
  0 <= us < MAXORDINAL * US_PER_DAY -> new_datetime us = Ok (Datetime us).
Proof.
  intros [H1 H2]. unfold new_datetime.
  apply Z.leb_le in H1. apply Z.ltb_lt in H2. now rewrite H1, H2.
Qed.

Section Progress.
Context {T F : Type} `{PyFloat F}.
Implicit Types m : Machine T F.

(** With a fair clock and percentages that can be computed, [stats]
    returns. *)
Lemma stats_succeeds m :
  1 <= __done (self m) <= __total (self m) ->
  fair_clock (world m) (__start_time (self m)) (__total (self m))
    (S (S (ticks (world m)))) ->
  (exists p, ETA.percent (__done (self m)) (__total (self m)) = Ok p) ->
  (exists p, ETA.percent (__total (self m) - __done (self m)) (__total (self m)) = Ok p) ->
  exists r m', ETA.stats m = (Ok r, m').
Proof.
  intros [Hd Ht] Hfair [dp Hdp] [rp Hrp].
  destruct (Hfair (ticks (world m)) (S (ticks (world m)))) as (He & Hmul & Hn & Hadd);
    [lia | lia |].
  cbv zeta in He, Hmul, Hadd.
  set (elapsed := dt_us (clock (world m) (ticks (world m)))
                  - dt_us (__start_time (self m))) in *.
  set (per := divide_and_round elapsed (__done (self m))).
  assert (0 <= per <= elapsed) as [Hp0 Hp1]
    by (apply divide_and_round_bounds; lia).
  assert (Hbig : MAX_DELTA_DAYS * US_PER_DAY > 0) by reflexivity.
  set (B := MAX_DELTA_DAYS * US_PER_DAY) in *.
  set (N := __total (self m)) in *. set (k := __done (self m)) in *.
  assert (Hel : elapsed <= elapsed * N) by nia.
  assert (Hrem : 0 <= per * (N - k) <= elapsed * N) by nia.
  assert (Htot : 0 <= per * N <= elapsed * N) by nia.
  assert (Hdone : 0 <= per * k <= elapsed * N) by nia.
  assert (E1 : datetime_sub (clock (world m) (ticks (world m))) (__start_time (self m))
               = Ok (Timedelta elapsed))
    by (apply new_delta_Ok; fold elapsed B; lia).
  assert (E2 : timedelta_truediv (Timedelta elapsed) k = Ok (Timedelta per)).
  { unfold timedelta_truediv. destruct (Z.eqb_spec k 0); [lia|].
    apply new_delta_Ok. cbn. fold per B. lia. }
  assert (E3 : timedelta_mul (Timedelta per) (N - k) = Ok (Timedelta (per * (N - k))))
    by (apply new_delta_Ok; cbn; fold B; lia).
  assert (E4 : timedelta_mul (Timedelta per) N = Ok (Timedelta (per * N)))
    by (apply new_delta_Ok; cbn; fold B; lia).
  assert (E5 : timedelta_mul (Timedelta per) k = Ok (Timedelta (per * k)))
    by (apply new_delta_Ok; cbn; fold B; lia).
  assert (E6 : datetime_add (clock (world m) (S (ticks (world m))))
                 (Timedelta (per * (N - k)))
               = Ok (Datetime (dt_us (clock (world m) (S (ticks (world m))))
                               + per * (N - k))))
    by (apply new_datetime_Ok; cbn; lia).
  subst per elapsed k N B. unfold ETA.stats.
  cbv [mbind M_bind get_self datetime_now get_world set_world lift mret M_ret alloc].
  cbn [self world clock ticks heap out].
  rewrite E1. cbv beta iota. rewrite E2. cbv beta iota.
  rewrite E3. cbv beta iota. rewrite E4. cbv beta iota.
  rewrite Hrp. cbv beta iota. rewrite E5. cbv beta iota.
  rewrite Hdp. cbv beta iota. rewrite E6. cbv beta iota. eauto.
Qed.

(** With a fair clock and percentages that can be computed, an advance on
    an iterator that has an item returns that item. *)
Lemma next_succeeds m x xs :
  __iterable (self m) = x :: xs ->
  0 <= __done (self m) < __total (self m) ->
  fair_clock (world m) (__start_time (self m)) (__total (self m))
    (S (S (ticks (world m)))) ->
  (forall k, 0 <= k <= __total (self m) ->
             exists p, ETA.percent k (__total (self m)) = Ok p) ->
  exists r m', ETA.__next__ m = (Ok (x, r), m').
Proof.
  intros Hi Hd Hfair Hpct.
  set (m2 := {| self := {| __iterable := xs; __total := __total (self m);
                           __done := __done (self m) + 1;
                           __start_time := __start_time (self m);
                           __auto_print := __auto_print (self m);
                           __overwrite := __overwrite (self m);
                           __file := __file (self m) |};
                world := world m |}).
  destruct (stats_succeeds m2) as (r & m3 & E3); cbn; try lia; auto.
  { apply Hpct. lia. } { apply Hpct. lia. }
  pose proof E3 as E3'.
  apply stats_Ok in E3' as (s & Hs & Hself & Hheap & -> & _ & _).
  destruct Hs as (_ & _ & _ & _ & (p & _ & Hp) & _).
  assert (Hobj : object m3 (length (heap (world m2))) = Ok s).
  { unfold object. rewrite Hheap. now rewrite list_lookup_middle. }
  assert (Htext : exists text, spec_text s = Ok text).
  { unfold spec_text. rewrite Hp. cbn. eauto. }
  destruct Htext as [text Htext].
  unfold ETA.__next__.
  rewrite (bind_run _ _ _ _ _ (increment_done_run m)).
  assert (E2 : ETA.next_iterable (after ETA.increment_done m) = (Ok x, m2)).
  { unfold ETA.next_iterable, after, ETA.increment_done, get_self, set_self,
      lift, mbind, M_bind. cbn. rewrite Hi. reflexivity. }
  rewrite (bind_run _ _ _ _ _ E2), (bind_run _ _ _ _ _ E3).
  unfold get_self at 1. unfold mbind at 1, M_bind at 1.
  destruct (__auto_print (self m3) && __overwrite (self m3));
    [|destruct (__auto_print (self m3) && negb (__overwrite (self m3)))];
    unfold mbind, M_bind;
    rewrite ?print_refresh_run, ?print_run, ?Hobj; cbn; rewrite ?Htext; cbn; eauto.
Qed.

Lemma advances_frame k : forall m rs m',
  advances k m = (Ok rs, m') ->
  __start_time (self m') = __start_time (self m) /\
  clock (world m') = clock (world m) /\
  ticks (world m') = (ticks (world m) + 2 * k)%nat.
Proof.
  induction k as [|k IH]; intros m rs m' E; cbn in E.
  - minv E. repeat split; lia.
  - apply bind_Ok in E as (rs' & m1 & E1 & E).
    apply bind_Ok in E as ([x r] & m2 & E2 & E). minv E.
    apply IH in E1 as (Hs & Hc & Ht).
    apply next_Ok_frame in E2 as (Hs' & Hc' & Ht').
    repeat split; [congruence | congruence | lia].
Qed.

Lemma fair_clock_sooner (w : World F) start N (h h' : nat) :
  (h <= h')%nat -> fair_clock w start N h' -> fair_clock w start N h.
Proof. intros Hh Hfair n n' Hn Hn'. apply Hfair; lia. Qed.

(** A sequence of [N] items, a clock that is fair for the readings that [k]
    advances make, and percentages that can be computed: then the first [k]
    advances, for [k <= N], all return, and yield the first [k] items. *)
Theorem advances_succeed (xs : list T) (auto_print overwrite : bool)
    (file : option string) (w : World F) (k : nat) :
  let N := Z.of_nat (length xs) in
  (k <= length xs)%nat ->
  fair_clock w (clock w (ticks w)) N (S (ticks w) + 2 * k) ->
  (forall a, 0 <= a <= N -> N <> 0 -> exists p, ETA.percent a N = Ok p) ->
  exists m0 rs m,
    ETA.__init__ (Sized xs) None auto_print overwrite file w = Ok m0 /\
    advances k m0 = (Ok rs, m) /\
    map fst rs = take k xs.
Proof.
  intros N Hk Hfair Hpct.
  set (m0 := {| self := {| __iterable := xs; __total := N; __done := 0;
                           __start_time := clock w (ticks w);
                           __auto_print := auto_print;
                           __overwrite := overwrite;
                           __file := file |};
                world := {| clock := clock w; ticks := S (ticks w);
                            heap := heap w; out := out w |} |}).
  enough (exists rs m, advances k m0 = (Ok rs, m) /\ map fst rs = take k xs)
    as (rs & m & E & Hrs) by (exists m0, rs, m; split; [reflexivity | eauto]).
  induction k as [|k IH].
  - exists [], m0. split; reflexivity.
  - destruct IH as (rs & m & E & Hrs); [lia | |].
    { eapply fair_clock_sooner; [|exact Hfair]. lia. }
    pose proof E as E'.
    apply advances_Ok in E' as (Hlen & Hdone & Htot & Hit & _).
    pose proof E as E''.
    apply advances_frame in E'' as (Hstart & Hclock & Hticks).
    cbn in Hdone, Htot, Hit, Hstart, Hclock, Hticks.
    rewrite Hrs in Hit.
    destruct (__iterable (self m)) as [|x xs'] eqn:Ei.
    { apply (f_equal length) in Hit.
      rewrite length_app, length_take in Hit. cbn in Hit. lia. }
    assert (Hx : xs !! k = Some x).
    { rewrite Hit at 1. apply list_lookup_middle. rewrite length_take. lia. }
    destruct (next_succeeds m x xs' Ei) as (r & m' & En).
    + rewrite Hdone, Htot. unfold len. cbn. lia.
    + rewrite Hstart, Htot. cbn. unfold fair_clock. rewrite Hclock, Hticks.
      cbn. eapply fair_clock_sooner; [|exact Hfair]. lia.
    + rewrite Htot. unfold len. cbn. intros a Ha. apply Hpct; [exact Ha|].
      fold N. lia.
    + exists (rs ++ [(x, r)]), m'. split.
      * cbn [advances]. rewrite (bind_run _ _ _ _ _ E), (bind_run _ _ _ _ _ En).
        reflexivity.
      * rewrite map_app, Hrs. cbn. symmetry. now apply take_S_r.
Qed.

End Progress.

(** With Python's floats the percentages of a count up to the total can be
    computed, so that the fairness of the clock is all that is asked. *)
Corollary advances_succeed_binary64 {T : Type} (xs : list T)
    (auto_print overwrite : bool) (file : option string) (w : World float) (k : nat) :
  (k <= length xs)%nat ->
  fair_clock w (clock w (ticks w)) (Z.of_nat (length xs)) (S (ticks w) + 2 * k) ->
  exists m0 rs m,
    ETA.__init__ (Sized xs) None auto_print overwrite file w = Ok m0 /\
    advances k m0 = (Ok rs, m) /\
    map fst rs = take k xs.
Proof.
  intros Hk Hfair. apply advances_succeed; [exact Hk | exact Hfair |].
  intros a Ha Hn.
  destruct (percent_close a (Z.of_nat (length xs))) as (p & Hp & _);
    [exact Ha | lia | eauto].
Qed.

(** The wall clock of the session is fair for its three advances. *)
Example wall_clock_fair {F} :
  fair_clock (F:=F) new_world (wall_clock 0) 3 7.
Proof.
  intros n n' Hn Hn'. cbn. unfold MAX_DELTA_DAYS, MAXORDINAL, US_PER_DAY, US_PER_SECOND.
  lia.
Qed.

Example session_advances :
  exists rs m, advances 3 (session (F:=float)) = (Ok rs, m) /\ map fst rs = [10; 20; 30].
Proof.
  destruct (advances_succeed_binary64 [10; 20; 30] false true None new_world 3)
    as (m0 & rs & m & Hinit & Hadv & Hrs); [cbn; lia | apply wall_clock_fair |].
  rewrite session_init in Hinit. injection Hinit as <-. eauto.
Qed.

(** * More of the code *)

(** ** What a call leaves of the estimator *)

Create HintDb keeps.

Section Keeps.
Context {T F : Type} `{PyFloat F}.
Implicit Types m : Machine T F.
Local Abbreviation keeps := (keeps (T:=T) (F:=F)).

#[global] Instance settings_preorder : PreOrder (settings (T:=T) (F:=F)).
Proof.
  split.
  - intros m. unfold settings. repeat apply conj; reflexivity.
  - intros m1 m2 m3 (H1 & H2 & H3 & H4 & H5 & H6 & H7 & H8)
      (H1' & H2' & H3' & H4' & H5' & H6' & H7' & H8').
    unfold settings. repeat apply conj; try congruence.
    + now transitivity (out (world m2)).
    + lia.
Qed.

#[global] Instance untouched_preorder : PreOrder (untouched (T:=T) (F:=F)).
Proof.
  split.
  - intros m. unfold untouched. repeat apply conj; reflexivity.
  - intros m1 m2 m3 (Hs & Hd & Hi) (Hs' & Hd' & Hi').
    refine (conj _ (conj _ _)); [|congruence..].
    now transitivity m2.
Qed.

Lemma keeps_ret {A} (a : A) : keeps (mret a).
Proof. intros m. reflexivity. Qed.

Lemma keeps_lift {A} (r : result A) : keeps (lift r).
Proof. intros m. reflexivity. Qed.

Lemma keeps_bind {A B} (c : M (T:=T) (F:=F) A) (k : A -> M B) :
  keeps c -> (forall a, keeps (k a)) -> keeps (c ≫= k).
Proof.
  intros Hc Hk m. specialize (Hc m). unfold after in *.
  unfold mbind, M_bind. destruct (c m) as [[a|e] m1]; cbn in *; [|exact Hc].
  etransitivity; [exact Hc | apply Hk].
Qed.

Lemma keeps_get_self : keeps get_self.
Proof. intros m. reflexivity. Qed.

Lemma keeps_datetime_now : keeps datetime_now.
Proof.
  intros m. unfold untouched, settings; cbn.
  repeat apply conj; try reflexivity.
  change (ticks (world m) <= S (ticks (world m)))%nat. lia.
Qed.

Lemma keeps_alloc s : keeps (alloc s).
Proof. intros m. unfold untouched, settings; cbn. repeat apply conj; reflexivity. Qed.

Lemma keeps_deref r : keeps (deref r).
Proof.
  intros m. unfold after, deref, get_world, mbind, M_bind; cbn.
  destruct (heap (world m) !! r); reflexivity.
Qed.

Lemma keeps_write file text : keeps (write file text).
Proof.
  intros m. unfold untouched, settings; cbn.
  repeat apply conj; try reflexivity. now apply prefix_app_r.
Qed.

#[local] Hint Resolve keeps_ret keeps_lift keeps_get_self keeps_datetime_now
  keeps_alloc keeps_deref keeps_write : keeps.

Ltac keeps :=
  repeat first
    [ solve [auto with keeps]
    | apply keeps_bind; [|intros]
    | match goal with
      | |- keeps (if ?b then _ else _) => destruct b
      | |- keeps (match ?x with _ => _ end) => destruct x
      end ].

Lemma keeps_str r : keeps (Stats.__str__ r).
Proof. unfold Stats.__str__. keeps. Qed.

Lemma keeps_print r file : keeps (Stats.print r file).
Proof. unfold Stats.print. keeps. Qed.

Lemma keeps_print_refresh r file : keeps (Stats.print_refresh r file).
Proof. unfold Stats.print_refresh. keeps. Qed.

Lemma keeps_dict r : keeps (Stats.dict r).
Proof. unfold Stats.dict. keeps. Qed.

Lemma keeps_stats : keeps ETA.stats.
Proof. unfold ETA.stats. keeps. Qed.

(** The fetch of [__next__], on an iterator that has an item. *)
Lemma next_iterable_fetches m x xs :
  __iterable (self m) = x :: xs ->
  ETA.next_iterable (after ETA.increment_done m) = (Ok x, fetched m xs).
Proof.
  intros Hi. unfold ETA.next_iterable, after, ETA.increment_done, get_self,
    set_self, lift, mbind, M_bind. cbn. rewrite Hi. reflexivity.
Qed.

(** An advance is the increment alone on an exhausted iterator; on another
    one, what follows the increment and the fetch leaves the estimator
    untouched. *)
Lemma next_effect m :
  match __iterable (self m) with
  | [] => after ETA.__next__ m = after ETA.increment_done m
  | x :: xs => untouched (fetched m xs) (after ETA.__next__ m)
  end.
Proof.
  destruct (__iterable (self m)) as [|x xs] eqn:Hi.
  - unfold after at 1. now rewrite (next_exhausted m Hi).
  - unfold after, ETA.__next__.
    rewrite (bind_run _ _ _ _ _ (increment_done_run m)).
    rewrite (bind_run _ _ _ _ _ (next_iterable_fetches m x xs Hi)).
    lazymatch goal with
    | |- untouched ?a (snd (?c ?a)) =>
        enough (keeps c) as Hk by exact (Hk a)
    end.
    keeps.
Qed.

Lemma next_settings m :
  settings m (after ETA.__next__ m) /\
  __done (self (after ETA.__next__ m)) = __done (self m) + 1 /\
  __iterable (self (after ETA.__next__ m)) = drop 1 (__iterable (self m)).
Proof.
  pose proof (next_effect m) as He.
  destruct (__iterable (self m)) as [|x xs] eqn:Hit.
  - rewrite He. refine (conj _ (conj _ _)); [|reflexivity|].
    + unfold settings; cbn. repeat apply conj; reflexivity.
    + change (__iterable (self (after ETA.increment_done m)))
        with (__iterable (self m)). now rewrite Hit.
  - destruct He as (Hs & Hd & Hi). refine (conj _ (conj Hd Hi)).
    etransitivity; [|exact Hs]. unfold settings; cbn. repeat apply conj; reflexivity.
Qed.

Lemma run_call_settings c m :
  settings m (run_call c m) /\
  __done (self (run_call c m))
  = __done (self m) + Z.of_nat (next_calls [c]) /\
  __iterable (self (run_call c m)) = drop (next_calls [c]) (__iterable (self m)).
Proof.
  destruct c; cbn [run_call next_calls];
    [apply next_settings
    |destruct (keeps_stats m) as (Hs & Hd & Hi)
    |destruct (keeps_str r m) as (Hs & Hd & Hi)
    |destruct (keeps_print r file m) as (Hs & Hd & Hi)
    |destruct (keeps_print_refresh r file m) as (Hs & Hd & Hi)
    |destruct (keeps_dict r m) as (Hs & Hd & Hi)];
    (refine (conj Hs (conj _ Hi)); cbn; lia).
Qed.

Lemma next_calls_cons c cs :
  next_calls (c :: cs) = (next_calls [c] + next_calls cs)%nat.
Proof. now destruct c. Qed.

Lemma run_calls_settings cs : forall m,
  settings m (run_calls cs m) /\
  __done (self (run_calls cs m)) = __done (self m) + Z.of_nat (next_calls cs) /\
  __iterable (self (run_calls cs m)) = drop (next_calls cs) (__iterable (self m)).
Proof.
  induction cs as [|c cs IH]; intros m.
  - cbn. refine (conj _ (conj _ _)); [reflexivity | lia | reflexivity].
  - cbn [run_calls foldl]. fold (run_calls cs (run_call c m)).
    destruct (run_call_settings c m) as (Hs & Hd & Hi).
    destruct (IH (run_call c m)) as (Hs' & Hd' & Hi').
    refine (conj _ (conj _ _)); [now transitivity (run_call c m)| |].
    + rewrite Hd', Hd, (next_calls_cons c cs). lia.
    + rewrite Hi', Hi, (next_calls_cons c cs). apply drop_drop.
Qed.

End Keeps.

(** X1: every call of [__next__] adds one to [__done] and takes one item
    from the iterator, as long as there is one, whether the call returns or
    raises; no other call changes the count or the iterator. *)
Theorem calls_of_next_are_counted {T F : Type} `{PyFloat F}
    (cs : list call) (m : Machine T F) :
  __done (self (run_calls cs m)) = __done (self m) + Z.of_nat (next_calls cs) /\
  __iterable (self (run_calls cs m)) = drop (next_calls cs) (__iterable (self m)).
Proof. apply run_calls_settings. Qed.

(** X2: no call changes the total, the start time, the two printing
    options, the file, or the text already written: what calls write is
    added at the end. *)
Theorem settings_are_fixed {T F : Type} `{PyFloat F}
    (cs : list call) (m : Machine T F) :
  let m' := run_calls cs m in
  __total (self m') = __total (self m) /\
  __start_time (self m') = __start_time (self m) /\
  __auto_print (self m') = __auto_print (self m) /\
  __overwrite (self m') = __overwrite (self m) /\
  __file (self m') = __file (self m) /\
  out (world m) `prefix_of` out (world m').
Proof.
  destruct (run_calls_settings cs m) as ((H1 & H2 & H3 & H4 & H5 & _ & H7 & _) & _).
  cbv zeta. auto 10.
Qed.

(** ** An advance, step by step *)

Section Advance.
Context {T F : Type} `{PyFloat F}.
Implicit Types m : Machine T F.

Lemma run_raise {A} (c : M (T:=T) (F:=F) A) m e :
  fst (c m) = Raise e -> c m = (Raise e, snd (c m)).
Proof. destruct (c m); cbn; now intros ->. Qed.

(** A run of [stats] that raises has read the clock and done nothing
    else. *)
Lemma stats_Raise m e m' :
  ETA.stats m = (Raise e, m') ->
  self m' = self m /\ heap (world m') = heap (world m) /\
  out (world m') = out (world m) /\ clock (world m') = clock (world m) /\
  (S (ticks (world m)) <= ticks (world m') <= S (S (ticks (world m))))%nat.
Proof.
  intros E. unfold ETA.stats in E. rinv E; subst; cbn;
    repeat apply conj; try reflexivity; lia.
Qed.

(** When [stats] raises in an advance, the advance raises the same. *)
Lemma next_stats_raises m x xs e m3 :
  __iterable (self m) = x :: xs ->
  ETA.stats (fetched m xs) = (Raise e, m3) ->
  ETA.__next__ m = (Raise e, m3).
Proof.
  intros Hi E. unfold ETA.__next__.
  rewrite (bind_run _ _ _ _ _ (increment_done_run m)).
  rewrite (bind_run _ _ _ _ _ (next_iterable_fetches m x xs Hi)).
  now apply bind_raise.
Qed.

(** When [stats] returns in an advance, the advance returns: the snapshot
    has a text, and the status line is all that is still done. *)
Lemma next_stats_returns m x xs r m3 :
  __iterable (self m) = x :: xs ->
  ETA.stats (fetched m xs) = (Ok r, m3) ->
  exists s text m',
    ETA.__next__ m = (Ok (x, r), m') /\
    snapshot_of (self (fetched m xs)) s /\
    heap (world m3) = heap (world m) ++ [s] /\
    r = length (heap (world m)) /\
    spec_text s = Ok text /\
    self m' = self (fetched m xs) /\
    heap (world m') = heap (world m3) /\
    clock (world m') = clock (world m) /\
    ticks (world m') = S (S (ticks (world m))) /\
    out (world m') = out (world m) ++ status_line (self m) text.
Proof.
  intros Hi E.
  pose proof E as E'.
  apply stats_Ok in E' as (s & Hs & Hself & Hheap & Hr & Hout & Hclock & Hticks).
  destruct (spec_text_snapshot _ _ Hs) as (text & Htext).
  assert (Hobj : object m3 r = Ok s).
  { unfold object. rewrite Hheap, Hr. cbn. now rewrite list_lookup_middle. }
  assert (Hnext : ETA.__next__ m =
    ((if __auto_print (self m) && __overwrite (self m)
      then Stats.print_refresh r (__file (self m))
      else if __auto_print (self m) && negb (__overwrite (self m))
      then Stats.print r (__file (self m))
      else mret tt);; mret (x, r)) m3).
  { unfold ETA.__next__.
    rewrite (bind_run _ _ _ _ _ (increment_done_run m)).
    rewrite (bind_run _ _ _ _ _ (next_iterable_fetches m x xs Hi)).
    rewrite (bind_run _ _ _ _ _ E).
    unfold mbind at 1, M_bind at 1. unfold get_self. rewrite Hself. reflexivity. }
  exists s, text. rewrite Hnext. unfold status_line.
  unfold mbind, M_bind.
  destruct (__auto_print (self m)), (__overwrite (self m)); cbn [andb negb];
    rewrite ?print_refresh_run, ?print_run, ?Hobj; cbn; rewrite ?Htext;
    eexists; (split; [reflexivity|]); cbn;
    rewrite ?Hself, ?Hout, ?Hclock, ?Hticks, ?app_nil_r; auto 10.
Qed.

(** An advance over an iterator that has an item returns or raises as
    [stats] does after the increment and the fetch. *)
Lemma next_Raise m x xs e m' :
  __iterable (self m) = x :: xs ->
  ETA.__next__ m = (Raise e, m') ->
  ETA.stats (fetched m xs) = (Raise e, m').
Proof.
  intros Hi E.
  destruct (ETA.stats (fetched m xs)) as [[r|e3] m3] eqn:E3.
  - destruct (next_stats_returns m x xs r m3 Hi E3) as (s & text & m'' & E' & _).
    congruence.
  - rewrite (next_stats_raises m x xs e3 m3 Hi E3) in E. now inversion E.
Qed.

Lemma next_Ok_stats m x r m' :
  ETA.__next__ m = (Ok (x, r), m') ->
  exists xs m3, __iterable (self m) = x :: xs /\
    ETA.stats (fetched m xs) = (Ok r, m3).
Proof.
  intros E. pose proof E as E'.
  apply next_Ok in E' as (xs & s & Hi & _).
  exists xs.
  destruct (ETA.stats (fetched m xs)) as [[r3|e3] m3] eqn:E3.
  - destruct (next_stats_returns m x xs r3 m3 Hi E3) as (? & ? & m'' & E' & _).
    exists m3. split; [exact Hi|]. congruence.
  - rewrite (next_stats_raises m x xs e3 m3 Hi E3) in E. discriminate E.
Qed.

End Advance.

(** X3: an advance that returns has added to the output the status line of
    the snapshot it returns, and nothing else: the text of [__str__] after a
    carriage return when [overwrite] is on, before a line feed when it is
    off, written to the estimator's file; nothing when [auto_print] is
    off. *)
Theorem advance_writes_status_line {T F : Type} `{PyFloat F}
    (m m' : Machine T F) (x : T) (r : ref) :
  ETA.__next__ m = (Ok (x, r), m') ->
  exists text,
    fst (Stats.__str__ r m') = Ok text /\
    out (world m') = out (world m) ++ status_line (self m) text.
Proof.
  intros E.
  destruct (next_Ok_stats m x r m' E) as (xs & m3 & Hi & E3).
  destruct (next_stats_returns m x xs r m3 Hi E3)
    as (s & text & m'' & E' & _ & Hheap & Hr & Htext & _ & Hh' & _ & _ & Hout).
  assert (m'' = m') as -> by congruence.
  exists text. split; [|exact Hout].
  rewrite str_run. cbn. unfold object.
  rewrite Hh', Hheap, Hr, list_lookup_middle by reflexivity. exact Htext.
Qed.

Lemma advance_writes_status_line_witness :
  exists text,
    fst (Stats.__str__ 0%nat (after ETA.__next__ (estimator (F:=float) [10; 20; 30] 3 true true)))
    = Ok text /\
    out (world (after ETA.__next__ (estimator (F:=float) [10; 20; 30] 3 true true)))
    = out (world (estimator (F:=float) [10; 20; 30] 3 true true))
      ++ status_line (self (estimator (F:=float) [10; 20; 30] 3 true true)) text.
Proof.
  apply (advance_writes_status_line _ _ 10 0%nat).
  apply run_eq. vm_compute. reflexivity.
Defined.

(** X4: [print] and [print_refresh] write the text that [__str__] returns,
    the first with a line feed after it, the second with a carriage return
    before it, to the file they are given, and change nothing else; when
    [__str__] raises, they raise the same and write nothing. *)
Theorem print_writes_the_text {T F : Type} `{PyFloat F}
    (r : ref) (file : option string) (m : Machine T F) :
  match fst (Stats.__str__ r m) with
  | Ok text =>
      Stats.print r file m = (Ok tt, written file (text +:+ LF) m) /\
      Stats.print_refresh r file m = (Ok tt, written file (CR +:+ text) m)
  | Raise e =>
      Stats.print r file m = (Raise e, m) /\
      Stats.print_refresh r file m = (Raise e, m)
  end.
Proof.
  rewrite str_run, print_run, print_refresh_run. cbn.
  now destruct (object m r ≫= spec_text).
Qed.

(** X5: [stats] never changes the estimator or the output.  When it
    returns, something is done and the total is not zero, and the snapshot is
    a new object; when it raises, no object is made, and the exception is
    [ZeroDivisionError], with nothing done or a total of zero, or
    [OverflowError]. *)
Theorem stats_outcome {T F : Type} `{PyFloatLaws F} (m : Machine T F) :
  self (after ETA.stats m) = self m /\
  out (world (after ETA.stats m)) = out (world m) /\
  match fst (ETA.stats m) with
  | Ok r =>
      __done (self m) <> 0 /\ __total (self m) <> 0 /\
      heap (world m) !! r = None /\
      exists s, heap (world (after ETA.stats m)) = heap (world m) ++ [s]
  | Raise e =>
      heap (world (after ETA.stats m)) = heap (world m) /\
      (e = OverflowError \/
       (e = ZeroDivisionError /\ (__done (self m) = 0 \/ __total (self m) = 0)))
  end.
Proof.
  unfold after. destruct (ETA.stats m) as [[r|e] m'] eqn:E; cbn.
  - apply stats_Ok in E as (s & Hs & Hself & Hheap & -> & Hout & _).
    refine (conj Hself (conj Hout (conj _ (conj _ (conj _ _))))).
    + apply Hs.
    + destruct Hs as (_ & _ & _ & _ & (p & Hp & _) & _).
      intros Hz. rewrite Hz in Hp. unfold ETA.percent in Hp.
      now rewrite int_truediv_zero in Hp.
    + now apply lookup_ge_None_2.
    + eauto.
  - pose proof (stats_raises _ _ _ E) as He.
    apply stats_Raise in E as (Hself & Hheap & Hout & _). auto.
Qed.

Lemma stats_outcome_witness :
  self (after ETA.stats (estimator (F:=float) [10; 20; 30] 3 false true))
  = self (estimator (F:=float) [10; 20; 30] 3 false true) /\
  out (world (after ETA.stats (estimator (F:=float) [10; 20; 30] 3 false true)))
  = out (world (estimator (F:=float) [10; 20; 30] 3 false true)) /\
  match fst (ETA.stats (estimator (F:=float) [10; 20; 30] 3 false true)) with
  | Ok r =>
      __done (self (estimator (F:=float) [10; 20; 30] 3 false true)) <> 0 /\
      __total (self (estimator (F:=float) [10; 20; 30] 3 false true)) <> 0 /\
      heap (world (estimator (F:=float) [10; 20; 30] 3 false true)) !! r = None /\
      exists s,
        heap (world (after ETA.stats (estimator (F:=float) [10; 20; 30] 3 false true)))
        = heap (world (estimator (F:=float) [10; 20; 30] 3 false true)) ++ [s]
  | Raise e =>
      heap (world (after ETA.stats (estimator (F:=float) [10; 20; 30] 3 false true)))
      = heap (world (estimator (F:=float) [10; 20; 30] 3 false true)) /\
      (e = OverflowError \/
       (e = ZeroDivisionError /\
        (__done (self (estimator (F:=float) [10; 20; 30] 3 false true)) = 0 \/
         __total (self (estimator (F:=float) [10; 20; 30] 3 false true)) = 0)))
  end.
Proof.
  exact (stats_outcome (H0:=binary64_laws)
           (estimator (F:=float) [10; 20; 30] 3 false true)).
Defined.

(** X6: an advance that raises on an iterator that had an item has taken
    the item and counted it all the same: the item is lost to the caller,
    no snapshot is made and nothing is written, and the exception is not
    [StopIteration]. *)
Theorem failed_advance_takes_the_item {T F : Type} `{PyFloatLaws F}
    (m m' : Machine T F) (x : T) (xs : list T) (e : exn) :
  __iterable (self m) = x :: xs ->
  ETA.__next__ m = (Raise e, m') ->
  __iterable (self m') = xs /\
  __done (self m') = __done (self m) + 1 /\
  heap (world m') = heap (world m) /\
  out (world m') = out (world m) /\
  (e = OverflowError \/ e = ZeroDivisionError).
Proof.
  intros Hi E. apply (next_Raise m x xs e m' Hi) in E.
  pose proof (stats_raises _ _ _ E) as He.
  apply stats_Raise in E as (Hself & Hheap & Hout & _).
  rewrite Hself, Hheap, Hout. cbn.
  repeat apply conj; try reflexivity.
  destruct He as [-> | [-> _]]; auto.
Qed.

Lemma failed_advance_takes_the_item_witness :
  __iterable (self (after ETA.__next__ (estimator (F:=float) [10; 20; 30] (10 ^ 15) false true)))
  = [20; 30] /\
  __done (self (after ETA.__next__ (estimator (F:=float) [10; 20; 30] (10 ^ 15) false true)))
  = __done (self (estimator (F:=float) [10; 20; 30] (10 ^ 15) false true)) + 1 /\
  heap (world (after ETA.__next__ (estimator (F:=float) [10; 20; 30] (10 ^ 15) false true)))
  = heap (world (estimator (F:=float) [10; 20; 30] (10 ^ 15) false true)) /\
  out (world (after ETA.__next__ (estimator (F:=float) [10; 20; 30] (10 ^ 15) false true)))
  = out (world (estimator (F:=float) [10; 20; 30] (10 ^ 15) false true)) /\
  (OverflowError = OverflowError \/ OverflowError = ZeroDivisionError).
Proof.
  apply (failed_advance_takes_the_item
           (estimator (F:=float) [10; 20; 30] (10 ^ 15) false true) _ 10 [20; 30]
           OverflowError).
  - reflexivity.
  - apply run_raise. vm_compute. reflexivity.
Defined.

(** X7: once the iterator is exhausted, every further advance raises
    [StopIteration] and adds one to [__done]; none of them reads the clock,
    makes a snapshot or writes. *)
Theorem exhausted_stays_exhausted {T F : Type} `{PyFloat F}
    (m : Machine T F) (k : nat) :
  __iterable (self m) = [] ->
  let m' := run_calls (replicate k CallNext) m in
  fst (ETA.__next__ m') = Raise StopIteration /\
  __iterable (self m') = [] /\
  __done (self m') = __done (self m) + Z.of_nat k /\
  world m' = world m.
Proof.
  cbv zeta. revert m. induction k as [|k IH]; intros m Hi.
  - cbn. rewrite (next_exhausted m Hi). cbn. repeat apply conj; try easy. lia.
  - cbn [replicate run_calls foldl run_call].
    fold (run_calls (replicate k CallNext) (after ETA.__next__ m)).
    assert (after ETA.__next__ m = after ETA.increment_done m) as ->.
    { unfold after at 1. now rewrite (next_exhausted m Hi). }
    destruct (IH (after ETA.increment_done m) Hi) as (H1 & H2 & H3 & H4).
    refine (conj H1 (conj H2 (conj _ H4))).
    rewrite H3, done_after_increment. lia.
Qed.

Lemma exhausted_stays_exhausted_witness :
  fst (ETA.__next__ (run_calls (replicate 2 CallNext) (estimator (F:=float) [] 5 true true)))
  = Raise StopIteration /\
  __iterable (self (run_calls (replicate 2 CallNext) (estimator (F:=float) [] 5 true true)))
  = [] /\
  __done (self (run_calls (replicate 2 CallNext) (estimator (F:=float) [] 5 true true)))
  = __done (self (estimator (F:=float) [] 5 true true)) + Z.of_nat 2 /\
  world (run_calls (replicate 2 CallNext) (estimator (F:=float) [] 5 true true))
  = world (estimator (F:=float) [] 5 true true).
Proof.
  apply (exhausted_stays_exhausted (estimator (F:=float) [] 5 true true) 2).
  reflexivity.
Defined.

(** ** Items, references and times *)

Section Times.
Context {T F : Type} `{PyFloat F}.
Implicit Types m : Machine T F.

Lemma advances_refs k : forall m rs m',
  advances k m = (Ok rs, m') ->
  map snd rs = seq (length (heap (world m))) k /\
  length (heap (world m')) = (length (heap (world m)) + k)%nat.
Proof.
  induction k as [|k IH]; intros m rs m' E; cbn [advances] in E.
  - minv E. cbn. split; [reflexivity | lia].
  - apply bind_Ok in E as (rs' & m1 & E1 & E).
    apply bind_Ok in E as ([x r] & m2 & E2 & E). minv E.
    apply IH in E1 as [Hrs Hlen].
    apply next_Ok in E2 as (xs & s & _ & _ & _ & _ & _ & Hheap & ->).
    rewrite map_app, Hrs, seq_S, Hheap, length_app, Hlen. cbn.
    split; [reflexivity | lia].
Qed.

Lemma new_delta_value us d : new_delta us = Ok d -> d = Timedelta us.
Proof.
  unfold new_delta. cbv zeta. destruct (_ && _); [now intros [= <-] | discriminate].
Qed.

Lemma new_datetime_value us t : new_datetime us = Ok t -> t = Datetime us.
Proof.
  unfold new_datetime. destruct (_ && _); [now intros [= <-] | discriminate].
Qed.

(** The rounded quotient is within half a unit of the divisor's multiples. *)
Lemma divide_and_round_error a b :
  0 < b -> 2 * Z.abs (divide_and_round a b * b - a) <= b.
Proof.
  intros Hb. unfold divide_and_round. cbv zeta.
  pose proof (Z.div_mod a b ltac:(lia)) as Hdm.
  pose proof (Z.mod_pos_bound a b Hb) as Hm.
  destruct (0 <? b) eqn:E0; [|apply Z.ltb_ge in E0; lia].
  destruct ((b <? 2 * (a mod b)) || ((2 * (a mod b) =? b) && Z.odd (a / b))) eqn:E.
  - assert (b <= 2 * (a mod b)) as Hhalf.
    { apply orb_true_iff in E as [E | E].
      - apply Z.ltb_lt in E. lia.
      - apply andb_true_iff in E as [E _]. apply Z.eqb_eq in E. lia. }
    replace ((a / b + 1) * b - a) with (b - a mod b) by lia. lia.
  - apply orb_false_iff in E as [E _]. apply Z.ltb_ge in E.
    replace (a / b * b - a) with (- (a mod b)) by lia. lia.
Qed.

(** The times of the snapshot [stats] makes, from the duration per item. *)
Lemma stats_times m r m' :
  ETA.stats m = (Ok r, m') ->
  exists s,
    heap (world m') = heap (world m) ++ [s] /\
    r = length (heap (world m)) /\
    snapshot_of (self m) s /\
    let per := divide_and_round
                 (dt_us (clock (world m) (ticks (world m)))
                  - dt_us (__start_time (self m))) (__done (self m)) in
    td_us (time (done s)) = per * __done (self m) /\
    td_us (time (remaining s)) = per * (__total (self m) - __done (self m)) /\
    td_us (time (total s)) = per * __total (self m) /\
    dt_us (eta s)
    = dt_us (clock (world m) (S (ticks (world m))))
      + per * (__total (self m) - __done (self m)).
Proof.
  intros E. pose proof E as E'.
  apply stats_Ok in E' as (s & Hs & _ & Hheap & Hr & _).
  exists s. refine (conj Hheap (conj Hr (conj Hs _))).
  unfold ETA.stats in E. minv E. cbn in Hheap.
  apply app_inj_tail in Hheap as [_ <-]. cbn.
  repeat match goal with
  | E : datetime_sub _ _ = Ok _ |- _ =>
      unfold datetime_sub in E; apply new_delta_value in E; subst
  | E : timedelta_truediv _ _ = Ok _ |- _ =>
      unfold timedelta_truediv in E;
      destruct (Z.eqb_spec (__done (self m)) 0); [discriminate E|];
      apply new_delta_value in E; subst
  | E : timedelta_mul _ _ = Ok _ |- _ =>
      unfold timedelta_mul in E; apply new_delta_value in E; subst
  | E : datetime_add _ _ = Ok _ |- _ =>
      unfold datetime_add in E; apply new_datetime_value in E; subst
  end.
  cbn. auto.
Qed.

(** A snapshot that [stats] or an advance returns was made by a run of
    [stats] with the same clock, start time and total. *)
Lemma snapshot_made m m' r :
  ETA.stats m = (Ok r, m') \/ (exists x, ETA.__next__ m = (Ok (x, r), m')) ->
  exists m0 m3,
    ETA.stats m0 = (Ok r, m3) /\
    world m0 = world m /\
    __start_time (self m0) = __start_time (self m) /\
    __total (self m0) = __total (self m) /\
    heap (world m') = heap (world m3) /\
    self m' = self m0.
Proof.
  intros [E | [x E]].
  - exists m, m'. pose proof E as E'.
    apply stats_Ok in E' as (_ & _ & Hself & _). auto 10.
  - destruct (next_Ok_stats m x r m' E) as (xs & m3 & Hi & E3).
    destruct (next_stats_returns m x xs r m3 Hi E3)
      as (s & text & m'' & E' & _ & _ & _ & _ & Hs' & Hh' & _).
    assert (m'' = m') as -> by congruence.
    exists (fetched m xs), m3. auto 10.
Qed.

End Times.

(** X8: advances in a row yield the items of the iterator in its order,
    none left out and none twice, and leave the rest in the iterator; each
    one returns a snapshot of its own, a new object. *)
Theorem advances_yield_in_order {T F : Type} `{PyFloat F}
    (k : nat) (m m' : Machine T F) (rs : list (T * ref)) :
  advances k m = (Ok rs, m') ->
  map fst rs = take k (__iterable (self m)) /\
  __iterable (self m') = drop k (__iterable (self m)) /\
  map snd rs = seq (length (heap (world m))) k.
Proof.
  intros E. pose proof E as E'.
  apply advances_Ok in E' as (Hlen & _ & _ & Hit & _).
  apply advances_refs in E as [Hrefs _].
  assert (length (map fst rs) = k) as Hl by now rewrite length_map.
  refine (conj _ (conj _ Hrefs)); rewrite Hit, <- Hl.
  - now rewrite take_app_length.
  - now rewrite drop_app_length.
Qed.

Lemma advances_yield_in_order_witness :
  map fst [(10, 0%nat); (20, 1%nat)]
  = take 2 (__iterable (self (estimator (F:=float) [10; 20; 30] 3 false true))) /\
  __iterable (self (after (advances 2) (estimator (F:=float) [10; 20; 30] 3 false true)))
  = drop 2 (__iterable (self (estimator (F:=float) [10; 20; 30] 3 false true))) /\
  map snd [(10, 0%nat); (20, 1%nat)]
  = seq (length (heap (world (estimator (F:=float) [10; 20; 30] 3 false true)))) 2.
Proof.
  apply (advances_yield_in_order 2 (estimator (F:=float) [10; 20; 30] 3 false true)).
  apply run_eq. vm_compute. reflexivity.
Defined.

(** X9: in every snapshot, the time done and the time remaining add up to
    the total time, the three times are to each other as the three counts,
    and the time of arrival is the second reading of the clock plus the time
    remaining.  The time done is the time elapsed from the start to the
    first reading, up to the rounding of the duration per item: half a
    microsecond for each item done. *)
Theorem snapshot_times {T F : Type} `{PyFloat F}
    (m m' : Machine T F) (r : ref) :
  ETA.stats m = (Ok r, m') \/ (exists x, ETA.__next__ m = (Ok (x, r), m')) ->
  exists s, heap (world m') !! r = Some s /\
    td_us (time (done s)) + td_us (time (remaining s)) = td_us (time (total s)) /\
    td_us (time (done s)) * absolute (total s)
    = td_us (time (total s)) * absolute (done s) /\
    td_us (time (remaining s)) * absolute (total s)
    = td_us (time (total s)) * absolute (remaining s) /\
    dt_us (eta s)
    = dt_us (clock (world m) (S (ticks (world m)))) + td_us (time (remaining s)) /\
    (0 < absolute (done s) ->
     2 * Z.abs (td_us (time (done s))
                - (dt_us (clock (world m) (ticks (world m)))
                   - dt_us (__start_time (self m))))
     <= absolute (done s)).
Proof.
  intros Hr.
  destruct (snapshot_made m m' r Hr) as (m0 & m3 & E & Hw & Hst & Ht & Hh & _).
  apply stats_times in E as (s & Hheap & -> & Hs & Hd & Hrem & Htot & Heta).
  cbv zeta in Hd, Hrem, Htot, Heta.
  destruct Hs as (Hat & Had & Har & _).
  exists s. split.
  { rewrite Hh, Hheap. now apply list_lookup_middle. }
  rewrite Hd, Hrem, Htot, Heta, Hat, Had, Har, Hw, Hst.
  repeat apply conj; try ring.
  intros Hpos. now apply divide_and_round_error.
Qed.

Lemma snapshot_times_witness :
  exists s,
    heap (world (after ETA.stats (after ETA.__next__
            (estimator (F:=float) [10; 20; 30] 3 false true)))) !! 1%nat = Some s /\
    td_us (time (done s)) + td_us (time (remaining s)) = td_us (time (total s)) /\
    td_us (time (done s)) * absolute (total s)
    = td_us (time (total s)) * absolute (done s) /\
    td_us (time (remaining s)) * absolute (total s)
    = td_us (time (total s)) * absolute (remaining s) /\
    dt_us (eta s)
    = dt_us (clock (world (after ETA.__next__
                (estimator (F:=float) [10; 20; 30] 3 false true)))
              (S (ticks (world (after ETA.__next__
                (estimator (F:=float) [10; 20; 30] 3 false true))))))
      + td_us (time (remaining s)) /\
    (0 < absolute (done s) ->
     2 * Z.abs (td_us (time (done s))
                - (dt_us (clock (world (after ETA.__next__
                            (estimator (F:=float) [10; 20; 30] 3 false true)))
                          (ticks (world (after ETA.__next__
                            (estimator (F:=float) [10; 20; 30] 3 false true)))))
                   - dt_us (__start_time (self (after ETA.__next__
                            (estimator (F:=float) [10; 20; 30] 3 false true))))))
     <= absolute (done s)).
Proof.
  apply (snapshot_times
           (after ETA.__next__ (estimator (F:=float) [10; 20; 30] 3 false true))
           _ 1%nat).
  left. apply run_eq. vm_compute. reflexivity.
Defined.

(** X10: a snapshot taken when everything is done, the count of done items
    being the total, has no time remaining, its time of arrival is the
    second reading of the clock, and its text ends in
    ["remaining 0:00:00"]. *)
Theorem finished_snapshot {T F : Type} `{PyFloat F}
    (m m' : Machine T F) (r : ref) :
  ETA.stats m = (Ok r, m') \/ (exists x, ETA.__next__ m = (Ok (x, r), m')) ->
  __done (self m') = __total (self m') ->
  exists s p,
    heap (world m') !! r = Some s /\
    absolute (remaining s) = 0 /\
    time (remaining s) = Timedelta 0 /\
    eta s = clock (world m) (S (ticks (world m))) /\
    fst (Stats.__str__ r m')
    = Ok (String.concat ""
            [int_str (__total (self m')); "/"; int_str (__total (self m'));
             " = "; p; "%, remaining 0:00:00"]).
Proof.
  intros Hr Hfin.
  destruct (snapshot_made m m' r Hr) as (m0 & m3 & E & Hw & Hst & Ht & Hh & Hself).
  apply stats_times in E as (s & Hheap & -> & Hs & _ & Hrem & _ & Heta).
  cbv zeta in Hrem, Heta. rewrite Hself in Hfin. rewrite Hself.
  destruct Hs as (Hat & Had & Har & _ & (p & _ & Hp) & _).
  assert (Hlook : heap (world m') !! length (heap (world m0)) = Some s).
  { rewrite Hh, Hheap. now apply list_lookup_middle. }
  assert (Htime : time (remaining s) = Timedelta 0).
  { destruct (time (remaining s)) as [us]. cbn in Hrem. f_equal. subst us.
    rewrite Hfin. ring. }
  exists s, (format_1f p).
  refine (conj Hlook (conj _ (conj Htime (conj _ _)))).
  - rewrite Har. lia.
  - rewrite <- Hw. destruct (eta s) as [us],
      (clock (world m0) (S (ticks (world m0)))) as [us'].
    cbn in Heta. f_equal. rewrite Heta, Hfin. ring.
  - assert (Hobj : object m' (length (heap (world m0))) = Ok s).
    { unfold object. rewrite Hh, Hheap. now rewrite list_lookup_middle. }
    rewrite str_run. cbn [fst]. rewrite Hobj.
    change (Ok s ≫= spec_text) with (spec_text s).
    unfold spec_text. rewrite Hp, Htime, Hat, Had, Hfin. reflexivity.
Qed.

Lemma finished_snapshot_witness :
  exists s p,
    heap (world (after ETA.__next__ (estimator (F:=float) [10] 1 false true))) !! 0%nat
    = Some s /\
    absolute (remaining s) = 0 /\
    time (remaining s) = Timedelta 0 /\
    eta s = clock (world (estimator (F:=float) [10] 1 false true))
              (S (ticks (world (estimator (F:=float) [10] 1 false true)))) /\
    fst (Stats.__str__ 0%nat (after ETA.__next__ (estimator (F:=float) [10] 1 false true)))
    = Ok (String.concat ""
            [int_str (__total (self (after ETA.__next__
                                       (estimator (F:=float) [10] 1 false true))));
             "/";
             int_str (__total (self (after ETA.__next__
                                       (estimator (F:=float) [10] 1 false true))));
             " = "; p; "%, remaining 0:00:00"]).
Proof.
  apply (finished_snapshot (estimator (F:=float) [10] 1 false true) _ 0%nat).
  - right. exists 10. apply run_eq. vm_compute. reflexivity.
  - vm_compute. reflexivity.
Defined.

(** X11: the mapping of [dict] keeps all of the snapshot: two calls that
    return the same mapping were made on snapshots with the same fields. *)
Theorem dict_determines_the_snapshot {T F : Type} `{PyFloat F}
    (m m' : Machine T F) (r r' : ref) (v : value F) :
  fst (Stats.dict r m) = Ok v ->
  fst (Stats.dict r' m') = Ok v ->
  exists s, heap (world m) !! r = Some s /\ heap (world m') !! r' = Some s.
Proof.
  rewrite !dict_run. cbn. unfold object.
  destruct (heap (world m) !! r) as [s|]; [|discriminate].
  destruct (heap (world m') !! r') as [s'|]; [|discriminate].
  cbn. intros [= <-] [= E]. exists s. split; [reflexivity|]. f_equal.
  destruct s as [[tt ta tp] [rt ra rp] [dt da dp] e],
           s' as [[tt' ta' tp'] [rt' ra' rp'] [dt' da' dp'] e'].
  cbn in *.
  assert (forall a b : number F, number_value a = number_value b -> a = b) as Hn.
  { intros [a|a] [b|b]; cbn; congruence. }
  repeat match goal with
  | E : number_value _ = number_value _ |- _ => apply Hn in E
  end.
  congruence.
Qed.

Lemma dict_determines_the_snapshot_witness :
  exists s,
    heap (world (after ETA.__next__ (estimator (F:=float) [10; 20; 30] 3 false true)))
      !! 0%nat = Some s /\
    heap (world (after (advances 2) (estimator (F:=float) [10; 20; 30] 3 false true)))
      !! 0%nat = Some s.
Proof.
  eapply (dict_determines_the_snapshot
            (after ETA.__next__ (estimator (F:=float) [10; 20; 30] 3 false true))
            (after (advances 2) (estimator (F:=float) [10; 20; 30] 3 false true))
            0%nat 0%nat).
  - vm_compute. reflexivity.
  - vm_compute. reflexivity.
Defined.

(** ** The range of the percentages *)



(** ** The loop of [main.py] *)

Section MainLoop.
Context {F : Type} `{PyFloat F}.
Implicit Types m : Machine Z F.

Lemma main_body_run num m :
  main_body num m = (Ok tt, written None (int_str num +:+ LF) m).
Proof. reflexivity. Qed.

(** The loop over what is left in the iterator, with fuel for more
    iterations than there are items. *)
Lemma for_each_main : forall (xs : list Z) (fuel : nat) m,
  __iterable (self m) = xs ->
  __auto_print (self m) = true ->
  __overwrite (self m) = true ->
  __file (self m) = None ->
  0 <= __done (self m) ->
  __done (self m) + Z.of_nat (length xs) = __total (self m) ->
  fair_clock (world m) (__start_time (self m)) (__total (self m))
    (ticks (world m) + 2 * length xs) ->
  (forall a, 0 <= a <= __total (self m) -> __total (self m) <> 0 ->
             exists p, ETA.percent a (__total (self m)) = Ok p) ->
  (length xs < fuel)%nat ->
  exists m' ss texts,
    for_each fuel main_body m = (Ok (Some tt), m') /\
    heap (world m') = heap (world m) ++ ss /\
    Forall2 (fun s text => spec_text s = Ok text) ss texts /\
    length texts = length xs /\
    out (world m') = out (world m) ++ main_output texts xs /\
    __done (self m') = __total (self m) + 1 /\
    __iterable (self m') = [].
Proof.
  induction xs as [|x xs IH]; intros fuel m Hi Hap How Hfile Hd Ht Hfair Hpct Hfuel.
  - destruct fuel as [|fuel]; [cbn in Hfuel; lia|].
    exists (after ETA.increment_done m), [], [].
    cbn [for_each]. rewrite (next_exhausted m Hi).
    rewrite !app_nil_r. cbn in Ht.
    repeat apply conj; try reflexivity; try constructor.
    + rewrite done_after_increment. lia.
    + exact Hi.
  - destruct fuel as [|fuel]; [cbn in Hfuel; lia|].
    cbn [length] in Ht, Hfair, Hfuel.
    destruct (next_succeeds m x xs Hi) as (r & m1 & En).
    { lia. }
    { eapply fair_clock_sooner; [|exact Hfair]. lia. }
    { intros a Ha. apply Hpct; [exact Ha | lia]. }
    destruct (next_Ok_stats m x r m1 En) as (xs' & m3 & Hi' & E3).
    assert (xs' = xs) as -> by congruence.
    destruct (next_stats_returns m x xs r m3 Hi E3)
      as (s & text & m1' & En' & _ & Hheap & _ & Htext & Hself & Hh1 & Hclock
          & Hticks & Hout).
    assert (m1' = m1) as -> by congruence.
    unfold status_line in Hout. rewrite Hap, How, Hfile in Hout.
    destruct (IH fuel (written None (int_str x +:+ LF) m1))
      as (m' & ss & texts & Efor & Hheap' & Htexts & Hlen & Hout' & Hdone' & Hit').
    { cbn. now rewrite Hself. }
    { cbn. now rewrite Hself. }
    { cbn. now rewrite Hself. }
    { cbn. now rewrite Hself. }
    { cbn. rewrite Hself. cbn. lia. }
    { cbn. rewrite Hself. cbn. lia. }
    { cbn. rewrite Hself. cbn. unfold fair_clock. cbn. rewrite Hclock, Hticks.
      eapply fair_clock_sooner; [|exact Hfair]. lia. }
    { cbn. rewrite Hself. cbn. exact Hpct. }
    { lia. }
    exists m', (s :: ss), (text :: texts).
    cbn [for_each]. rewrite En, main_body_run.
    cbn in Hheap', Hout', Hdone'. rewrite Hself in Hdone'. cbn in Hdone'.
    refine (conj Efor (conj _ (conj _ (conj _ (conj _ (conj Hdone' Hit')))))).
    + rewrite Hheap', Hh1, Hheap, <- app_assoc. reflexivity.
    + now constructor.
    + cbn. now rewrite Hlen.
    + rewrite Hout', Hout. unfold main_output. cbn.
      rewrite <- !app_assoc. reflexivity.
Qed.

End MainLoop.

(** X13: [main.py] over a list of numbers, with a fair clock and
    percentages that can be computed, runs to its end: the loop takes every
    number once, in the order of the list, and writes before each number the
    status line of the snapshot of its advance; one snapshot is made for each
    number; [StopIteration] ends the loop and is not passed on; and the
    advance that raised it has counted too, so that [__done] is one more
    than the length of the list. *)
Theorem main_completes {F : Type} `{PyFloat F}
    (data : list Z) (w : World F) (fuel : nat) :
  let N := Z.of_nat (length data) in
  (length data < fuel)%nat ->
  fair_clock w (clock w (ticks w)) N (S (ticks w) + 2 * length data) ->
  (forall a, 0 <= a <= N -> N <> 0 -> exists p, ETA.percent a N = Ok p) ->
  exists m ss texts,
    main fuel data w = Ok (Some tt, m) /\
    heap (world m) = heap w ++ ss /\
    Forall2 (fun s text => spec_text s = Ok text) ss texts /\
    length texts = length data /\
    out (world m) = out w ++ main_output texts data /\
    __done (self m) = N + 1 /\
    __iterable (self m) = [].
Proof.
  intros N Hfuel Hfair Hpct.
  set (m0 := {| self := {| __iterable := data; __total := N; __done := 0;
                           __start_time := clock w (ticks w);
                           __auto_print := true;
                           __overwrite := true;
                           __file := None |};
                world := {| clock := clock w; ticks := S (ticks w);
                            heap := heap w; out := out w |} |}).
  destruct (for_each_main data fuel m0)
    as (m & ss & texts & Efor & Hheap & Htexts & Hlen & Hout & Hdone & Hit);
    try reflexivity; try exact Hfuel; try exact Hpct.
  - exact Hfair.
  - exists m, ss, texts.
    refine (conj _ (conj Hheap (conj Htexts (conj Hlen (conj Hout (conj Hdone Hit)))))).
    change (match for_each fuel main_body m0 with
            | (Ok r, m') => Ok (r, m')
            | (Raise e, _) => Raise e
            end = Ok (Some tt, m)).
    now rewrite Efor.
Qed.

Lemma main_completes_witness :
  exists m ss texts,
    main (F:=float) 4 [10; 20; 30] new_world = Ok (Some tt, m) /\
    heap (world m) = heap (new_world (F:=float)) ++ ss /\
    Forall2 (fun s text => spec_text s = Ok text) ss texts /\
    length texts = length [10; 20; 30] /\
    out (world m) = out (new_world (F:=float)) ++ main_output texts [10; 20; 30] /\
    __done (self m) = Z.of_nat (length [10; 20; 30]) + 1 /\
    __iterable (self m) = [].
Proof.
  apply (main_completes (F:=float) [10; 20; 30] new_world 4).
  - simpl. lia.
  - intros n n' Hn Hn'. simpl in Hn, Hn'. cbn.
    unfold MAX_DELTA_DAYS, MAXORDINAL, US_PER_DAY, US_PER_SECOND. lia.
  - intros a Ha _. simpl in Ha.
    assert (a = 0 \/ a = 1 \/ a = 2 \/ a = 3) as [-> | [-> | [-> | ->]]] by lia;
      eexists; vm_compute; reflexivity.
Defined.

(** What [main.py] writes over three numbers, with Python's floats and the
    wall clock of the session. *)
Example main_writes :
  (fun rm => out (world (snd rm))) <$> main (F:=float) 4 [10; 20; 30] new_world
  = Ok [(None, CR +:+ "1/3 = 33.3%, remaining 0:00:02"); (None, "10" +:+ LF);
        (None, CR +:+ "2/3 = 66.7%, remaining 0:00:01.500000"); (None, "20" +:+ LF);
        (None, CR +:+ "3/3 = 100.0%, remaining 0:00:00"); (None, "30" +:+ LF)]%string.
Proof. vm_compute. reflexivity. Qed.
